(** * neuronbridge_lib: the JACS UID generator and the paged S3 listing

    A shallow embedding of [generate_jacs_uid] and [get_all_s3_objects]
    of [bin/neuronbridge_lib.py].  Python integers are [Z] (unbounded, so
    [<<] is [Z.shiftl] and [&] is [Z.land] on two's complement), [None] or
    an integer is [option Z], keyword dictionaries are [gmap string pyval],
    exceptions are values of [exn] carried by [result]. *)

From Stdlib Require Import ZArith String Ascii List Bool Lia.
From stdpp Require Import base option list strings gmap.

Local Open Scope string_scope.
Local Open Scope list_scope.
Local Open Scope Z_scope.

(** ** Python values that both functions share *)

Module Py.

(** The exception classes that occur.  [SystemExit] derives from
    [BaseException] only, the others from [Exception]. *)
Inductive exn : Type :=
| OSError (msg : string)
| ValueError (msg : string)
| TypeError (msg : string)
| NameError (name : string)
| SystemExit (code : Z).

Definition is_Exception (e : exn) : bool :=
  match e with
  | SystemExit _ => false
  | _ => true
  end.

Inductive result (A : Type) : Type :=
| Ok (a : A)
| Raise (e : exn).
Arguments Ok {A} a.
Arguments Raise {A} e.

(** Truth value of an object that is [None] or an [int]. *)
Definition truthy (o : option Z) : bool :=
  match o with
  | Some v => negb (v =? 0)
  | None => false
  end.

(** Truth value of an object that is [None] or a [str]. *)
Definition truthy_str (o : option string) : bool :=
  match o with
  | Some s => negb (String.eqb s "")
  | None => false
  end.

(** [a == b] on objects that are [None] or an [int]. *)
Definition eqb_obj (a b : option Z) : bool :=
  match a, b with
  | Some x, Some y => x =? y
  | None, None => true
  | _, _ => false
  end.

(** [s.split(sep)] for a one-character separator: never empty. *)
Fixpoint split (sep : ascii) (s : string) : list string :=
  match s with
  | EmptyString => [EmptyString]
  | String c r =>
      if Ascii.eqb c sep then EmptyString :: split sep r
      else match split sep r with
           | h :: t => String c h :: t
           | [] => [String c EmptyString]
           end
  end.

(** [l[-1]] on the result of [split]. *)
Definition last_item (l : list string) : string := List.last l EmptyString.

Definition digit_of (c : ascii) : option Z :=
  let n := Z.of_N (N_of_ascii c) in
  if (48 <=? n) && (n <=? 57) then Some (n - 48) else None.

Fixpoint digits (acc : Z) (s : string) : option Z :=
  match s with
  | EmptyString => Some acc
  | String c r =>
      match digit_of c with
      | Some d => digits (10 * acc + d) r
      | None => None
      end
  end.

(** [int(s)] on a string: an optional sign and at least one decimal
    digit; [None] stands for [ValueError].  (The octets of a dotted
    address, which is what the caller passes, are plain digit strings;
    surrounding blanks and digit-group underscores are not modelled.) *)
Definition int_of_str (s : string) : option Z :=
  match s with
  | EmptyString => None
  | String "-" (String c r) => option_map Z.opp (digits 0 (String c r))
  | String "+" (String c r) => digits 0 (String c r)
  | String _ _ => digits 0 s
  end.

End Py.
Import Py.

(** ** [generate_jacs_uid] *)

Module Uid.

(** What the function reads from its surroundings: [socket.gethostname],
    [socket.gethostbyname] and the successive values of
    [int(time.time()*1000)], indexed by how many were read before. *)
Record env : Type := {
  gethostname : result string;
  gethostbyname : string -> result string;
  clock : nat -> Z
}.

(** What it leaves behind: sleeps and printed lines, in order. *)
Inductive event : Type :=
| Sleep (ms : Z)
| Print (line : string).

Record world : Type := {
  ticks : nat;
  events : list event
}.

Definition world0 : world := {| ticks := 0; events := [] |}.

Definition tick (w : world) : world :=
  {| ticks := S (ticks w); events := events w |}.

Definition time_ms (E : env) (w : world) : Z * world :=
  (clock E (ticks w), tick w).

Definition emit (ev : event) (w : world) : world :=
  {| ticks := ticks w; events := events w ++ [ev] |}.

(** The names bound by the module's [import] statements. *)
Definition module_imports : list string :=
  ["glob"; "os"; "re"; "socket"; "time"; "TerminalMenu"].

Definition current_time_offset : Z := 921700000000.
Definition max_tries : Z := 1023.

(** Lines 109-113: the [try]/[except Exception] around the lookups. *)
Definition resolve (E : env) : result string :=
  let attempt :=
    match gethostname E with
    | Ok hostname => gethostbyname E hostname
    | Raise e => Raise e
    end in
  match attempt with
  | Ok ipa => Ok ipa
  | Raise e =>
      if is_Exception e then gethostbyname E "localhost" else Raise e
  end.

(** Line 114. *)
Definition ip_component (ipa : string) : result Z :=
  match int_of_str (last_item (split "." ipa)) with
  | Some n => Ok (Z.land n 255)
  | None => Raise (ValueError "invalid literal for int()")
  end.

Record loop_state : Type := {
  current_index : Z;
  next_uid : option Z
}.

(** Lines 117-119: the candidate for a clock reading and an index. *)
Definition candidate (deployment_context ip now index : Z) : Z :=
  let time_component := now - current_time_offset in
  let time_component := Z.shiftl time_component 22 in
  time_component + Z.shiftl index 12 + Z.shiftl deployment_context 8 + ip.

(** Lines 117-125: one pass through the body of the [while]. *)
Definition loop_body (E : env) (deployment_context : Z)
    (last_uid : option Z) (ip : Z) (s : loop_state) (w : world)
    : loop_state * world :=
  let '(now, w) := time_ms E w in
  let s := {| current_index := current_index s;
              next_uid := Some (candidate deployment_context ip now
                                          (current_index s)) |} in
  let s :=
    if truthy last_uid && eqb_obj last_uid (next_uid s)
    then {| current_index := current_index s + 1; next_uid := None |}
    else s in
  if negb (truthy (next_uid s)) && (current_index s >? max_tries)
  then ({| current_index := 0; next_uid := next_uid s |},
        emit (Sleep 500) w)
  else (s, w).

(** Line 116. *)
Definition loop_guard (s : loop_state) : bool :=
  (current_index s <=? max_tries) && negb (truthy (next_uid s)).

(** The [while]; [None] when [fuel] passes do not reach its exit. *)
Fixpoint while_loop (fuel : nat) (E : env) (deployment_context : Z)
    (last_uid : option Z) (ip : Z) (s : loop_state) (w : world)
    : option (loop_state * world) :=
  if loop_guard s then
    match fuel with
    | O => None
    | S fuel' =>
        let '(s', w') := loop_body E deployment_context last_uid ip s w in
        while_loop fuel' E deployment_context last_uid ip s' w'
    end
  else Some (s, w).

(** [sys.exit(code)]: [sys] has to be a name of the module. *)
Definition sys_exit (code : Z) : exn :=
  if existsb (String.eqb "sys") module_imports
  then SystemExit code
  else NameError "sys".

(** Lines 126-129: [return next_uid] hands back the object itself. *)
Definition after_loop (s : loop_state) (w : world)
    : result (option Z) * world :=
  if negb (truthy (next_uid s)) then
    let w := emit (Print "Could not generate JACS UID") w in
    (Raise (sys_exit (-1)), w)
  else (Ok (next_uid s), w).

Definition generate_jacs_uid (fuel : nat) (E : env)
    (deployment_context : Z) (last_uid : option Z) (w : world)
    : option (result (option Z) * world) :=
  match resolve E with
  | Raise e => Some (Raise e, w)
  | Ok ipa =>
      match ip_component ipa with
      | Raise e => Some (Raise e, w)
      | Ok ip =>
          let s0 := {| current_index := 0; next_uid := None |} in
          match while_loop fuel E deployment_context last_uid ip s0 w with
          | None => None
          | Some (s, w') => Some (after_loop s w')
          end
      end
  end.

(** Decoding the packed fields of an identifier. *)
Definition host_field (uid : Z) : Z := Z.land uid 255.
Definition context_field (uid : Z) : Z := Z.land (Z.shiftr uid 8) 15.
Definition index_field (uid : Z) : Z := Z.land (Z.shiftr uid 12) 1023.
Definition time_field (uid : Z) : Z := Z.shiftr uid 22.

(** A host that resolves to [ipa] and a clock stuck at [now]. *)
Definition fixed_env (ipa : string) (now : Z) : env :=
  {| gethostname := Ok "host";
     gethostbyname := fun _ => Ok ipa;
     clock := fun _ => now |}.

(** The ways through the body of the loop, as a relation between the
    state before a pass and the state after it. *)
Inductive pass (E : env) (deployment_context : Z) (last_uid : option Z)
    (ip : Z) (s : loop_state) (w : world) : loop_state * world -> Prop :=
| pass_keep :
    truthy last_uid
    && eqb_obj last_uid
         (Some (candidate deployment_context ip (clock E (ticks w))
                          (current_index s))) = false ->
    negb (truthy (Some (candidate deployment_context ip
                                  (clock E (ticks w)) (current_index s))))
    && (current_index s >? max_tries) = false ->
    pass E deployment_context last_uid ip s w
      ({| current_index := current_index s;
          next_uid := Some (candidate deployment_context ip
                                      (clock E (ticks w))
                                      (current_index s)) |},
       tick w)
| pass_collide :
    truthy last_uid = true ->
    last_uid = Some (candidate deployment_context ip (clock E (ticks w))
                               (current_index s)) ->
    current_index s + 1 <= max_tries ->
    pass E deployment_context last_uid ip s w
      ({| current_index := current_index s + 1; next_uid := None |},
       tick w)
| pass_sleep :
    truthy last_uid = true ->
    last_uid = Some (candidate deployment_context ip (clock E (ticks w))
                               (current_index s)) ->
    max_tries < current_index s + 1 ->
    pass E deployment_context last_uid ip s w
      ({| current_index := 0; next_uid := None |},
       emit (Sleep 500) (tick w))
| pass_beyond :
    truthy last_uid
    && eqb_obj last_uid
         (Some (candidate deployment_context ip (clock E (ticks w))
                          (current_index s))) = false ->
    candidate deployment_context ip (clock E (ticks w)) (current_index s)
    = 0 ->
    max_tries < current_index s ->
    pass E deployment_context last_uid ip s w
      ({| current_index := 0; next_uid := Some 0 |},
       emit (Sleep 500) (tick w)).

(** What holds of every state the loop reaches from index 0 in a call
    entered in world [w0]: nothing was printed or slept; the index is 0,
    or 1 after the single collision that [last_uid] allows; a candidate
    that is held was computed from one of the clock readings of this
    call and is not a truthy [last_uid]. *)
Definition reached (E : env) (deployment_context : Z)
    (last_uid : option Z) (ip : Z) (w0 : world) (s : loop_state)
    (w : world) : Prop :=
  events w = events w0
  /\ (ticks w0 <= ticks w)%nat
  /\ (current_index s = 0
      \/ (current_index s = 1
          /\ exists now0,
               last_uid = Some (candidate deployment_context ip now0 0)))
  /\ (forall v, next_uid s = Some v ->
                (exists k, (ticks w0 <= k < ticks w)%nat
                           /\ v = candidate deployment_context ip
                                            (clock E k) (current_index s))
                /\ (v <> 0 -> Some v <> last_uid)).

(** Successive elements grow strictly. *)
Definition strictly_increasing (l : list Z) : Prop :=
  forall (i : nat) (a b : Z),
    l !! i = Some a -> l !! (S i) = Some b -> a < b.

(** [a; b; a; b; ...] of length [n]. *)
Fixpoint alternate {A : Type} (a b : A) (n : nat) : list A :=
  match n with
  | O => []
  | S n' => a :: alternate b a n'
  end.

(** A caller's burst of [n] calls, each handed the result of the one
    before as [last_uid]; it stops at the first call that raises. *)
Fixpoint burst (fuel : nat) (E : env) (deployment_context : Z) (n : nat)
    (last_uid : option Z) (w : world) : option (list (option Z) * world) :=
  match n with
  | O => Some ([], w)
  | S n' =>
      match generate_jacs_uid fuel E deployment_context last_uid w with
      | Some (Ok uid, w') =>
          match burst fuel E deployment_context n' uid w' with
          | Some (uids, w'') => Some (uid :: uids, w'')
          | None => None
          end
      | _ => None
      end
  end.

End Uid.

(** ** [get_all_s3_objects] *)

Module Listing.

(** Values of the keyword arguments of [list_objects_v2]. *)
Inductive pyval : Type :=
| PInt (n : Z)
| PStr (s : string).

(** The part of a response dictionary that the generator reads with
    [response.get]: a key that is absent reads as [None]. *)
Record response (entry : Type) : Type := {
  Contents : option (list entry);
  IsTruncated : option bool;
  NextContinuationToken : option string
}.
Arguments Contents {entry} _.
Arguments IsTruncated {entry} _.
Arguments NextContinuationToken {entry} _.

(** What a [next()] on the generator gives the consumer. *)
Inductive outcome (entry : Type) : Type :=
| Item (e : entry)
| StopIteration
| Raised (e : exn).
Arguments Item {entry} e.
Arguments StopIteration {entry}.
Arguments Raised {entry} e.

(** Where the generator is between two [next()]: about to run the top
    of [while True] with a continuation token (a generator that was
    never advanced is there with [None]), suspended in the
    [yield from] with entries left, or finished. *)
Inductive generator (entry : Type) : Type :=
| Fetching (continuation_token : option string)
| Yielding (rest : list entry) (resp : response entry)
| Finished.
Arguments Fetching {entry} continuation_token.
Arguments Yielding {entry} rest resp.
Arguments Finished {entry}.

Definition truthy_flag (o : option bool) : bool := default false o.

(** Lines 23-25; [dict(MaxKeys=1000, **base_kwargs)] refuses a second
    [MaxKeys]. *)
Definition list_kwargs (base_kwargs : gmap string pyval)
    (continuation_token : option string) : result (gmap string pyval) :=
  match base_kwargs !! "MaxKeys" with
  | Some _ =>
      Raise (TypeError "dict() got multiple values for keyword argument")
  | None =>
      let kwargs := <["MaxKeys" := PInt 1000]> base_kwargs in
      match continuation_token with
      | Some token =>
          if truthy_str continuation_token
          then Ok (<["ContinuationToken" := PStr token]> kwargs)
          else Ok kwargs
      | None => Ok kwargs
      end
  end.

Section Generator.
Context {entry client : Type}.

(** [s3c.list_objects_v2] applied to the keyword dictionary, on a
    client whose state is a [client]. *)
Variable list_objects_v2 :
  client -> gmap string pyval -> result (response entry) * client.
Variable base_kwargs : gmap string pyval.

(** Calling the generator function runs none of its body; [s3c] and
    [base_kwargs] stay the same for the life of the generator. *)
Definition get_all_s3_objects : generator entry := Fetching None.

(** One [next()]: run the body up to the next [yield], the end of the
    function or an exception.  [Fetching] runs lines 23-26 and enters the
    [yield from] of line 27; [Yielding] hands out the next entry of the
    page, and with none left runs lines 28-30.  A page that yields
    nothing leads straight to the next request, so the number of steps
    inside one [next()] is bounded by [fuel]. *)
Fixpoint next (fuel : nat) (g : generator entry) (s3c : client)
    : option (outcome entry * generator entry * client) :=
  match fuel with
  | O => None
  | S fuel' =>
      match g with
      | Finished => Some (StopIteration, Finished, s3c)
      | Yielding (e :: rest) resp => Some (Item e, Yielding rest resp, s3c)
      | Yielding [] resp =>
          if negb (truthy_flag (IsTruncated resp))
          then Some (StopIteration, Finished, s3c)
          else next fuel' (Fetching (NextContinuationToken resp)) s3c
      | Fetching continuation_token =>
          match list_kwargs base_kwargs continuation_token with
          | Raise e => Some (Raised e, Finished, s3c)
          | Ok kwargs =>
              match list_objects_v2 s3c kwargs with
              | (Raise e, s3c') => Some (Raised e, Finished, s3c')
              | (Ok resp, s3c') =>
                  next fuel' (Yielding (default [] (Contents resp)) resp)
                       s3c'
              end
          end
      end
  end.

(** [n] successive [next()] of a consumer. *)
Fixpoint pulls (fuel : nat) (n : nat) (g : generator entry)
    (s3c : client)
    : option (list (outcome entry) * generator entry * client) :=
  match n with
  | O => Some ([], g, s3c)
  | S n' =>
      match next fuel g s3c with
      | None => None
      | Some (o, g', s3c') =>
          match pulls fuel n' g' s3c' with
          | None => None
          | Some (os, g'', s3c'') => Some (o :: os, g'', s3c'')
          end
      end
  end.

End Generator.

(** A client that answers from a script and keeps the requests it got. *)
Record scripted (entry : Type) : Type := {
  pending : list (result (response entry));
  requests : list (gmap string pyval)
}.
Arguments pending {entry} _.
Arguments requests {entry} _.

Definition scripted_list_objects_v2 {entry : Type} (s3c : scripted entry)
    (kwargs : gmap string pyval)
    : result (response entry) * scripted entry :=
  match pending s3c with
  | [] => (Raise (OSError "script exhausted"),
           {| pending := []; requests := requests s3c ++ [kwargs] |})
  | r :: rest =>
      (r, {| pending := rest; requests := requests s3c ++ [kwargs] |})
  end.

(** A service that answers every request with the same page and counts
    the requests. *)
Definition constant_list_objects_v2 {entry : Type} (page : response entry)
    (count : nat) (kwargs : gmap string pyval)
    : result (response entry) * nat :=
  (Ok page, S count).

End Listing.

(** ** Strings: helpers to state facts about [split] and [replace] *)

Module Str.

(** [c in s] for a character [c]. *)
Fixpoint contains (c : ascii) (s : string) : bool :=
  match s with
  | EmptyString => false
  | String d r => Ascii.eqb d c || contains c r
  end.

End Str.

(** ** Scripts of pages for [get_all_s3_objects] *)

Module ListingScript.
Import Listing.

(** The keyword dictionary of the initial request and of a request that
    carries a token. *)
Definition first_request (base_kwargs : gmap string pyval)
    : gmap string pyval :=
  <["MaxKeys" := PInt 1000]> base_kwargs.

Definition token_request (base_kwargs : gmap string pyval) (token : string)
    : gmap string pyval :=
  <["ContinuationToken" := PStr token]> (first_request base_kwargs).

(** A page that says more pages follow after [token]. *)
Definition truncated_page {entry : Type} (es : list entry) (token : string)
    : response entry :=
  {| Contents := Some es; IsTruncated := Some true;
     NextContinuationToken := Some token |}.

(** The answers of a service that holds the truncated [pages], then
    [final]; [rest] is whatever the script has after that. *)
Definition script {entry : Type} (pages : list (list entry * string))
    (final : response entry) (rest : list (result (response entry)))
    : list (result (response entry)) :=
  map (fun p => Ok (truncated_page (fst p) (snd p))) pages
  ++ Ok final :: rest.

(** All the entries those pages hold, in order. *)
Definition entries {entry : Type} (pages : list (list entry * string))
    (final : response entry) : list entry :=
  concat (map fst pages) ++ default [] (Contents final).

End ListingScript.

(** ** [copy_ppp_imagery.py]: renaming and copying the PPP images *)

Module Ppp.

Definition CDM_ALIGNMENT_SPACE : string := "JRC2018_Unisex_20x_HR".
Definition NEURONBRIDGE_JSON_BASE : string := "/Volumes/neuronbridge".
Definition RENAME_COMPONENTS : list string :=
  ["neuronName"; "lineName"; "slideCode"; "objective"].

(** [sep.join(parts)]. *)
Fixpoint join (sep : string) (parts : list string) : string :=
  match parts with
  | [] => EmptyString
  | [p] => p
  | p :: rest => p +:+ sep +:+ join sep rest
  end.

(** One element of [data['results']]: its string-valued keys, and
    [imageVariants], a list of dictionaries with string values, when the
    key is there. *)
Record pmatch : Type := {
  fields : gmap string string;
  imageVariants : option (list (gmap string string))
}.

(** What the function does to its surroundings, in order: log records
    (format and arguments; [LogException] stands for the record made from
    [TEMPLATE]), directories made and files copied. *)
Inductive event : Type :=
| LogError (fmt : string) (args : list string)
| LogWarning (fmt : string) (args : list string)
| LogException (e : exn)
| MadeDir (dir : string)
| Copied (src dst : string).

(** How a run ends when it does not return: [sys.exit], a [KeyError] that
    nothing catches, or an exception that is no [Exception] and passes
    the handlers. *)
Inductive stop : Type :=
| SysExit (code : Z)
| KeyError (key : string)
| Uncaught (e : exn).

(** The surroundings: [json.load] of the file at a path, with the value
    of [data['results']] when the key is there; what [Path.mkdir] and
    [shutil.copy] raise, if anything, given what happened before; and
    [str.lower], which lowers every cased character by Python's own case
    tables: nothing is assumed about it here but that it is a function
    of the string. *)
Record env : Type := {
  json_load : string -> result (option (list pmatch));
  mkdir : list event -> string -> option exn;
  shutil_copy : list event -> string -> string -> option exn;
  str_lower : string -> string
}.

Record state : Type := {
  filedict : gmap string Z;
  trace : list event
}.

(** State and early exit, threaded through the body. *)
Definition M (A : Type) : Type := state -> (stop + A) * state.

Definition ret {A : Type} (a : A) : M A := fun st => (inr a, st).

Definition bind {A B : Type} (m : M A) (k : A -> M B) : M B :=
  fun st =>
    match m st with
    | (inl e, st') => (inl e, st')
    | (inr a, st') => k a st'
    end.

Definition raise {A : Type} (e : stop) : M A := fun st => (inl e, st).

Definition log (ev : event) : M unit :=
  fun st => (inr tt, {| filedict := filedict st; trace := trace st ++ [ev] |}).

Definition get : M state := fun st => (inr st, st).

Definition remember (newname : string) : M unit :=
  fun st => (inr tt, {| filedict := <[newname := 1]> (filedict st);
                        trace := trace st |}).

Notation "'let*' x := c1 'in' c2" := (bind c1 (fun x => c2))
  (at level 10, x name, c1 at level 100, c2 at level 200).
Notation "c1 ;; c2" := (bind c1 (fun _ => c2))
  (at level 100, c2 at level 200, right associativity).

(** [d[key]] on a dictionary with string values. *)
Definition item (d : gmap string string) (key : string) : M string :=
  match d !! key with
  | Some v => ret v
  | None => raise (KeyError key)
  end.

Fixpoint for_each {X : Type} (f : X -> M unit) (l : list X) : M unit :=
  match l with
  | [] => ret tt
  | x :: rest => f x ;; for_each f rest
  end.

(** [[match[key] for key in RENAME_COMPONENTS]]. *)
Fixpoint items (d : gmap string string) (keys : list string)
    : M (list string) :=
  match keys with
  | [] => ret []
  | key :: rest => let* v := item d key in let* vs := items d rest in ret (v :: vs)
  end.

(** Lines 190-191. *)
Definition newdir_of (neuronbridge library path : string) : string :=
  join "/" [NEURONBRIDGE_JSON_BASE; "ppp_imagery"; neuronbridge; library]
  +:+ "/" +:+ hd EmptyString (split "." (last_item (split "/" path))).

(** Lines 204-205: the four components joined by dashes, then the
    alignment space and the variant type in lower case. *)
Definition newname_of (E : env) (m : pmatch) (img : gmap string string)
    : M string :=
  let* components := items (fields m) RENAME_COMPONENTS in
  let* variant := item img "variantType" in
  ret (join "-" components
       +:+ "-" +:+ CDM_ALIGNMENT_SPACE +:+ "-" +:+ str_lower E variant
       +:+ ".png").

(** Lines 203-216: the body of the loop over the image variants. *)
Definition handle_image (E : env) (newdir path : string) (m : pmatch)
    (img : gmap string string) : M unit :=
  let* newname := newname_of E m img in
  let* st := get in
  match filedict st !! newname with
  | Some _ =>
      let* name := item (fields m) "fullEmName" in
      log (LogError "Duplicate file name found for %s in %s" [name; path]) ;;
      raise (SysExit (-1))
  | None =>
      remember newname ;;
      let newpath := join "/" [newdir; newname] in
      match img !! "imagePath" with
      | None =>
          (* the handler evaluates img['imagePath'] again *)
          raise (KeyError "imagePath")
      | Some src =>
          let* st := get in
          match shutil_copy E (trace st) src newpath with
          | None => log (Copied src newpath)
          | Some e =>
              if is_Exception e then
                log (LogError "Could not copy %s to %s" [src; newpath]) ;;
                log (LogException e) ;;
                raise (SysExit (-1))
              else raise (Uncaught e)
          end
      end
  end.

(** Lines 197-216: the body of the loop over the results. *)
Definition handle_match (E : env) (newdir path : string) (m : pmatch)
    : M unit :=
  match imageVariants m with
  | None => ret tt
  | Some variants =>
      match fields m !! "lineName" with
      | None =>
          let* name := item (fields m) "fullLmName" in
          log (LogWarning "No lineName for %s in %s" [name; path])
      | Some _ => for_each (handle_image E newdir path m) variants
      end
  end.

Definition handle_single_json_file (E : env) (neuronbridge library : string)
    (path : string) : (stop + unit) * state :=
  let start := {| filedict := ∅; trace := [] |} in
  match json_load E path with
  | Raise e =>
      if is_Exception e then
        (log (LogError "Could not open %s" [path]) ;;
         log (LogException e) ;;
         raise (SysExit (-1))) start
      else (inl (Uncaught e), start)
  | Ok results =>
      let newdir := newdir_of neuronbridge library path in
      (let* st := get in
       match mkdir E (trace st) newdir with
       | None => log (MadeDir newdir)
       | Some e =>
           if is_Exception e then
             log (LogError "Could not create %s" [newdir]) ;;
             log (LogException e)
           else raise (Uncaught e)
       end ;;
       match results with
       | None => raise (KeyError "results")
       | Some matches => for_each (handle_match E newdir path) matches
       end) start
  end.

(** The copies in a trace, as pairs of source and destination. *)
Fixpoint copies (tr : list event) : list (string * string) :=
  match tr with
  | [] => []
  | Copied src dst :: rest => (src, dst) :: copies rest
  | _ :: rest => copies rest
  end.

(** What a match asks to be copied: nothing when it lacks
    [imageVariants] or [lineName]; else, per image variant, its
    [imagePath] and its new name below [newdir], where the keys are
    there. *)
Definition planned_name (E : env) (m : pmatch) (img : gmap string string)
    : option string :=
  match fst (newname_of E m img {| filedict := ∅; trace := [] |}) with
  | inr newname => Some newname
  | inl _ => None
  end.

Definition planned_image (E : env) (newdir : string) (m : pmatch)
    (img : gmap string string) : option (string * string) :=
  match img !! "imagePath", planned_name E m img with
  | Some src, Some newname => Some (src, join "/" [newdir; newname])
  | _, _ => None
  end.

Definition planned (E : env) (newdir : string) (m : pmatch)
    : list (option (string * string)) :=
  match imageVariants m, fields m !! "lineName" with
  | Some variants, Some _ => map (planned_image E newdir m) variants
  | _, _ => []
  end.

(** What one pass over an image variant can do, case by case. *)
Inductive image_step (E : env) (newdir path : string) (m : pmatch)
    (img : gmap string string) (st : state) : (stop + unit) * state -> Prop :=
| step_no_name e :
    planned_name E m img = None ->
    image_step E newdir path m img st (inl e, st)
| step_duplicate_unnamed n :
    planned_name E m img = Some n ->
    is_Some (filedict st !! n) ->
    fields m !! "fullEmName" = None ->
    image_step E newdir path m img st (inl (KeyError "fullEmName"), st)
| step_duplicate n name :
    planned_name E m img = Some n ->
    is_Some (filedict st !! n) ->
    fields m !! "fullEmName" = Some name ->
    image_step E newdir path m img st
      (inl (SysExit (-1)),
       {| filedict := filedict st;
          trace := trace st
                   ++ [LogError "Duplicate file name found for %s in %s"
                                [name; path]] |})
| step_no_path n :
    planned_name E m img = Some n ->
    filedict st !! n = None ->
    img !! "imagePath" = None ->
    image_step E newdir path m img st
      (inl (KeyError "imagePath"),
       {| filedict := <[n := 1]> (filedict st); trace := trace st |})
| step_copied n src :
    planned_name E m img = Some n ->
    filedict st !! n = None ->
    img !! "imagePath" = Some src ->
    shutil_copy E (trace st) src (join "/" [newdir; n]) = None ->
    image_step E newdir path m img st
      (inr tt,
       {| filedict := <[n := 1]> (filedict st);
          trace := trace st ++ [Copied src (join "/" [newdir; n])] |})
| step_copy_failed n src e :
    planned_name E m img = Some n ->
    filedict st !! n = None ->
    img !! "imagePath" = Some src ->
    shutil_copy E (trace st) src (join "/" [newdir; n]) = Some e ->
    is_Exception e = true ->
    image_step E newdir path m img st
      (inl (SysExit (-1)),
       {| filedict := <[n := 1]> (filedict st);
          trace := (trace st
                    ++ [LogError "Could not copy %s to %s"
                                 [src; join "/" [newdir; n]]])
                   ++ [LogException e] |})
| step_copy_uncaught n src e :
    planned_name E m img = Some n ->
    filedict st !! n = None ->
    img !! "imagePath" = Some src ->
    shutil_copy E (trace st) src (join "/" [newdir; n]) = Some e ->
    is_Exception e = false ->
    image_step E newdir path m img st
      (inl (Uncaught e),
       {| filedict := <[n := 1]> (filedict st); trace := trace st |}).

(** The new names that the image variants of a list of matches get. *)
Definition named (E : env) (matches : list pmatch) (n : string) : Prop :=
  exists m variants img,
    In m matches /\ imageVariants m = Some variants /\ In img variants
    /\ planned_name E m img = Some n.

(** No destination was written twice, and every destination is [newdir],
    a slash and a name that [filedict] holds and that [ok] admits. *)
Definition tidy (ok : string -> Prop) (newdir : string) (st : state) : Prop :=
  NoDup (map snd (copies (trace st)))
  /\ forall d, In d (map snd (copies (trace st))) ->
               exists n, d = join "/" [newdir; n]
                         /\ is_Some (filedict st !! n) /\ ok n.

(** What [str.lower] does to a string of ASCII characters: [A]-[Z] become
    [a]-[z].  It stands for [str_lower] in the examples below, whose
    strings are ASCII. *)
Definition lower_ascii (c : ascii) : ascii :=
  let n := N_of_ascii c in
  if ((65 <=? n) && (n <=? 90))%N then ascii_of_N (n + 32) else c.

Fixpoint lower_ascii_text (s : string) : string :=
  match s with
  | EmptyString => EmptyString
  | String c r => String (lower_ascii c) (lower_ascii_text r)
  end.

(** A result file to try the functions on: a match with two image
    variants, a match without [lineName], and surroundings in which
    every file operation succeeds and the strings are ASCII. *)
Definition sample_match : pmatch :=
  {| fields := {[ "neuronName" := "1537331894"; "lineName" := "R10A11";
                  "slideCode" := "20200124_61_A1"; "objective" := "40x";
                  "fullEmName" := "1537331894-LC10-RT";
                  "fullLmName" := "R10A11-20200124_61_A1-40x" ]};
     imageVariants :=
       Some [ {[ "variantType" := "RAW";
                 "imagePath" := "/nrs/ppp/1537331894/raw.png" ]};
              {[ "variantType" := "MASKED_RAW";
                 "imagePath" := "/nrs/ppp/1537331894/masked.png" ]} ] |}.

Definition sample_unnamed : pmatch :=
  {| fields := {[ "fullLmName" := "R99Z99-20200124_61_B2-40x" ]};
     imageVariants := Some [ {[ "variantType" := "RAW";
                               "imagePath" := "/nrs/ppp/x/raw.png" ]} ] |}.

Definition sample_env (matches : list pmatch) : env :=
  {| json_load := fun _ => Ok (Some matches);
     mkdir := fun _ _ => None;
     shutil_copy := fun _ _ _ => None;
     str_lower := lower_ascii_text |}.

End Ppp.

(** ** The menus of [neuronbridge_lib.py] and [copy_ppp_imagery.py] *)

Module Menus.

Definition RELEASE_LIBRARY_BASE : string :=
  "/groups/scicompsoft/informatics/data/release_libraries".

Definition newline : ascii := "010"%char.

(** What the menu functions can raise. *)
Inductive raised : Type :=
| KeyError (key : string)
| IndexError
| TypeError (msg : string)
| SysExit (code : Z).

(** [s.replace(old, new)] for a one-character [old]. *)
Fixpoint replace_char (old : ascii) (new : string) (s : string) : string :=
  match s with
  | EmptyString => EmptyString
  | String c r =>
      if Ascii.eqb c old then new +:+ replace_char old new r
      else String c (replace_char old new r)
  end.

(** [re.search(r".+/", key)] as a truth value.  The pattern asks for one
    or more characters other than a newline and then a slash, anywhere in
    the key: there is a match exactly when some slash comes right after
    a character that is not a newline.  [prev] says whether the character
    before the current one exists and is not a newline. *)
Fixpoint search_from (prev : bool) (key : string) : bool :=
  match key with
  | EmptyString => false
  | String c r =>
      (prev && Ascii.eqb c "/") || search_from (negb (Ascii.eqb c newline)) r
  end.

Definition search_dots_slash (key : string) : bool := search_from false key.

(** [re.sub('.*/', '', path)]: [.] does not match a newline, so in every
    line of the path the longest prefix that ends in a slash goes. *)
Definition strip_dirs (path : string) : string :=
  Ppp.join (String newline EmptyString)
    (map (fun line => last_item (split "/" line)) (split newline path)).

(** [neuronbridge_lib.get_library], lines 46-49, over the prefix
    dictionaries that the paginator's search gives; [None] is a
    dictionary without ['Prefix']. *)
Fixpoint prefix_names (prefixes : list (option string))
    (cdmlist : list string) : raised + list string :=
  match prefixes with
  | [] => inr cdmlist
  | None :: _ => inl (TypeError "expected string or bytes-like object")
  | Some key :: rest =>
      if search_dots_slash key then
        match split "/" key !! 1%nat with
        | Some name => prefix_names rest (cdmlist ++ [name])
        | None => inl IndexError
        end
      else prefix_names rest cdmlist
  end.

(** Lines 51-54, over the items of [cdm_libs] in their order. *)
Fixpoint unique_names (cdm_libs : list (string * gmap string string))
    (cdmlist : list string) : raised + list string :=
  match cdm_libs with
  | [] => inr cdmlist
  | (cdmlib, library) :: rest =>
      match library !! "name" with
      | None => inl (KeyError "name")
      | Some name =>
          if existsb (String.eqb name) cdmlist
          then unique_names rest cdmlist
          else unique_names rest (cdmlist ++ [name])
      end
  end.

(** The two ways [get_library] is called: with client, bucket and
    prefix (three arguments; what matters is the listing they lead to),
    or with the ["cdm_library"] configuration. *)
Inductive library_source : Type :=
| FromBucket (prefixes : list (option string))
| FromConfig (cdm_libs : list (string * gmap string string)).

(** [TerminalMenu(entries).show()] is the parameter [show]; the first
    component of the result is what was printed. *)
Definition get_library (show : list string -> option nat)
    (source : library_source) : list string * (raised + option string) :=
  let printed := ["Select a library:"] in
  let cdmlist :=
    match source with
    | FromBucket prefixes => prefix_names prefixes []
    | FromConfig cdm_libs => unique_names cdm_libs []
    end in
  match cdmlist with
  | inl e => (printed, inl e)
  | inr cdmlist =>
      match show cdmlist with
      | None => (printed, inr None)
      | Some chosen =>
          match cdmlist !! chosen with
          | Some name => (printed, inr (Some (replace_char " " "_" name)))
          | None => (printed, inl IndexError)
          end
      end
  end.

(** [neuronbridge_lib.get_neuronbridge_version]; [isdir] and [glob]
    are what [os.path.isdir] and [glob.glob] answer. *)
Definition get_neuronbridge_version (isdir : bool) (glob : list string)
    (show : list string -> option nat)
    : list string * (raised + option string) :=
  if negb isdir then
    (["Directory " +:+ RELEASE_LIBRARY_BASE +:+ " does not exist"], inr None)
  else
    let version := map strip_dirs glob in
    let printed := ["Select a NeuronBridge version:"] in
    match show version with
    | None => (printed, inr None)
    | Some chosen =>
        match version !! chosen with
        | Some v => (printed, inr (Some v))
        | None => (printed, inl IndexError)
        end
    end.

(** [copy_ppp_imagery.get_nb_version]: the result is the new value of
    [ARG.NEURONBRIDGE]; no choice logs an error and exits with status 0. *)
Definition get_nb_version (glob : list string)
    (show : list string -> option nat)
    : list string * list Ppp.event * (raised + string) :=
  let version := map strip_dirs glob in
  let printed := ["Select a NeuronBridge version:"] in
  match show version with
  | None =>
      (printed, [Ppp.LogError "No NeuronBridge version selected" []],
       inl (SysExit 0))
  | Some chosen =>
      match version !! chosen with
      | Some v => (printed, [], inr v)
      | None => (printed, [], inl IndexError)
      end
  end.

End Menus.

(** ** [copy_ppp_imagery.py]: fetching the configuration *)

Module Config.

(** JSON values as far as the code looks into them: strings, objects,
    and everything else (numbers, lists, [true], [false], [null]). *)
#[warnings="-register-all"]
Inductive json : Type :=
| JStr (s : string)
| JObj (members : gmap string json)
| JOther.

Inductive raised : Type :=
| KeyError (key : string)
| TypeError (msg : string)
| SysExit (code : Z)
| Uncaught (e : exn).

(** Log records: [LOGGER.critical(err)] with the text of the exception,
    and [LOGGER.error('Status: %s (%s)', str(req.status_code), url)]. *)
Inductive event : Type :=
| LogCritical (msg : string)
| LogStatus (status_code : Z) (url : string).

(** What [requests.get(url)] does: raise a [RequestException], raise
    something else, or answer with a status code and a body that
    [req.json()] decodes or fails on. *)
Inductive reply : Type :=
| RequestException (msg : string)
| OtherException (e : exn)
| Response (status_code : Z) (body : result json).

(** The module's globals [CONFIG] and [AWS], the URLs requested so far
    and the log. *)
Record globals : Type := {
  CONFIG : json;
  AWS : json;
  requested : list string;
  logged : list event
}.

(** [CONFIG = {'config': {'url': 'http://config.int.janelia.org/'}}] and
    [AWS = dict()] at import. *)
Definition globals0 : globals :=
  {| CONFIG := JObj {[ "config" :=
                         JObj {[ "url" :=
                                   JStr "http://config.int.janelia.org/" ]} ]};
     AWS := JObj ∅;
     requested := [];
     logged := [] |}.

(** [j[key]] for a string [key]. *)
Definition subscript (j : json) (key : string) : raised + json :=
  match j with
  | JObj members =>
      match members !! key with
      | Some v => inr v
      | None => inl (KeyError key)
      end
  | JStr _ => inl (TypeError "string indices must be integers")
  | JOther => inl (TypeError "value is not subscriptable by a string")
  end.

(** [j + endpoint] for a string [endpoint]. *)
Definition concat_str (j : json) (endpoint : string) : raised + string :=
  match j with
  | JStr s => inr (s +:+ endpoint)
  | _ => inl (TypeError "unsupported operand type(s) for +")
  end.

Definition call_responder (get : list string -> string -> reply)
    (server endpoint : string) (g : globals) : (raised + json) * globals :=
  match subscript (CONFIG g) server with
  | inl e => (inl e, g)
  | inr entry =>
      match subscript entry "url" with
      | inl e => (inl e, g)
      | inr base =>
          match concat_str base endpoint with
          | inl e => (inl e, g)
          | inr url =>
              let g1 := {| CONFIG := CONFIG g; AWS := AWS g;
                           requested := requested g ++ [url];
                           logged := logged g |} in
              match get (requested g) url with
              | RequestException msg =>
                  (inl (SysExit (-1)),
                   {| CONFIG := CONFIG g; AWS := AWS g;
                      requested := requested g1;
                      logged := logged g ++ [LogCritical msg] |})
              | OtherException e => (inl (Uncaught e), g1)
              | Response status_code body =>
                  if negb (status_code =? 200) then
                    (inl (SysExit (-1)),
                     {| CONFIG := CONFIG g; AWS := AWS g;
                        requested := requested g1;
                        logged := logged g ++ [LogStatus status_code url] |})
                  else
                    match body with
                    | Ok data => (inr data, g1)
                    | Raise e => (inl (Uncaught e), g1)
                    end
              end
          end
      end
  end.

Definition initialize_program (get : list string -> string -> reply)
    (g : globals) : (raised + unit) * globals :=
  match call_responder get "config" "config/rest_services" g with
  | (inl e, g1) => (inl e, g1)
  | (inr data, g1) =>
      match subscript data "config" with
      | inl e => (inl e, g1)
      | inr config =>
          let g2 := {| CONFIG := config; AWS := AWS g1;
                       requested := requested g1; logged := logged g1 |} in
          match call_responder get "config" "config/aws" g2 with
          | (inl e, g3) => (inl e, g3)
          | (inr data, g3) =>
              match subscript data "config" with
              | inl e => (inl e, g3)
              | inr aws =>
                  (inr tt, {| CONFIG := CONFIG g3; AWS := aws;
                              requested := requested g3;
                              logged := logged g3 |})
              end
          end
      end
  end.

(** The URL of the first request. *)
Definition rest_services_url : string :=
  "http://config.int.janelia.org/config/rest_services".

End Config.

(** ** [copy_ppp_imagery.get_library]: the libraries that can be chosen *)

Module PppLibrary.

(** What [client.head_object] does for a key: answer, raise
    [ClientError], or raise something else. *)
Inductive head_reply : Type :=
| HeadFound
| HeadClientError
| HeadRaises (e : exn).

Inductive raised : Type :=
| SysExit (code : Z)
| KeyError (key : string)
| IndexError
| Uncaught (e : exn).

(** [LogException] is [LOGGER.critical(err)] for a caught exception. *)
Inductive event : Type :=
| LogException (e : exn)
| LogCritical (msg : string)
| LogError (msg : string)
| Printed (line : string).

Definition is_found (r : head_reply) : bool :=
  match r with
  | HeadFound => true
  | _ => false
  end.

(** [l[-2]]. *)
Definition second_last (l : list string) : option string :=
  match rev l with
  | _ :: x :: _ => Some x
  | _ => None
  end.

(** The key whose presence makes a library eligible (lines 104-105). *)
Definition denormalized_key (prefixname : string) : string :=
  Ppp.CDM_ALIGNMENT_SPACE +:+ "/" +:+ prefixname
  +:+ "/searchable_neurons/keys_denormalized.json".

(** Lines 101-109, over the dictionaries of [response['CommonPrefixes']];
    [None] is a dictionary without ['Prefix']. *)
Fixpoint eligible (head_object : string -> head_reply)
    (prefixes : list (option string)) (library : list string)
    : raised + list string :=
  match prefixes with
  | [] => inr library
  | None :: _ => inl (KeyError "Prefix")
  | Some prefix :: rest =>
      match second_last (split "/" prefix) with
      | None => inl IndexError
      | Some prefixname =>
          match head_object (denormalized_key prefixname) with
          | HeadFound => eligible head_object rest (library ++ [prefixname])
          | HeadClientError => eligible head_object rest library
          | HeadRaises e => inl (Uncaught e)
          end
      end
  end.

(** The function; [listing] is what [client.list_objects_v2] does (an
    exception, or a response with or without ['CommonPrefixes']), the
    result is the new value of [ARG.LIBRARY]. *)
Definition get_library (listing : result (option (list (option string))))
    (head_object : string -> head_reply) (show : list string -> option nat)
    : list event * (raised + string) :=
  match listing with
  | Raise e =>
      if is_Exception e then ([LogException e], inl (SysExit (-1)))
      else ([], inl (Uncaught e))
  | Ok None =>
      ([LogCritical "Could not find any libraries"], inl (SysExit (-1)))
  | Ok (Some prefixes) =>
      match eligible head_object prefixes [] with
      | inl e => ([], inl e)
      | inr library =>
          let printed := [Printed "Select a library:"] in
          match show library with
          | None => (printed ++ [LogError "No library selected"],
                     inl (SysExit 0))
          | Some chosen =>
              match library !! chosen with
              | Some name => (printed, inr name)
              | None => (printed, inl IndexError)
              end
          end
      end
  end.

End PppLibrary.

(** ** Facts about the retry loop *)

Module UidLoop.
Import Uid.

Lemma shiftl_22 (x : Z) : Z.shiftl x 22 = x * 4194304.
Proof. now rewrite Z.shiftl_mul_pow2 by lia. Qed.

Lemma shiftl_12 (x : Z) : Z.shiftl x 12 = x * 4096.
Proof. now rewrite Z.shiftl_mul_pow2 by lia. Qed.

Lemma shiftl_8 (x : Z) : Z.shiftl x 8 = x * 256.
Proof. now rewrite Z.shiftl_mul_pow2 by lia. Qed.

Lemma candidate_arith (dc ip now index : Z) :
  candidate dc ip now index
  = (now - 921700000000) * 4194304 + index * 4096 + dc * 256 + ip.
Proof.
  unfold candidate, current_time_offset.
  now rewrite shiftl_22, shiftl_12, shiftl_8.
Qed.

Lemma truthy_Some (v : Z) : truthy (Some v) = true <-> v <> 0.
Proof.
  simpl. rewrite negb_true_iff, Z.eqb_neq. tauto.
Qed.

Lemma truthy_true (o : option Z) :
  truthy o = true -> exists v, o = Some v /\ v <> 0.
Proof.
  destruct o as [v|]; [|discriminate].
  intros H. exists v. split; [reflexivity|now apply truthy_Some].
Qed.

Lemma eqb_obj_true (a b : option Z) : eqb_obj a b = true <-> a = b.
Proof.
  destruct a as [x|], b as [y|]; simpl; try (split; congruence).
  rewrite Z.eqb_eq. split; congruence.
Qed.

Section Loop.
Variable E : env.
Variables (deployment_context : Z) (last_uid : option Z) (ip : Z).

Abbreviation body := (loop_body E deployment_context last_uid ip).
Abbreviation loop fuel := (while_loop fuel E deployment_context last_uid ip).
Abbreviation cand w s :=
  (candidate deployment_context ip (clock E (ticks w)) (current_index s)).

Abbreviation pass := (Uid.pass E deployment_context last_uid ip).

Lemma loop_body_pass (s : loop_state) (w : world) : pass s w (body s w).
Proof.
  unfold loop_body, time_ms. cbn [next_uid current_index].
  destruct (truthy last_uid && eqb_obj last_uid (Some (cand w s)))
    eqn:Hcol.
  - apply andb_true_iff in Hcol as [Ht Heq].
    apply eqb_obj_true in Heq.
    cbn [next_uid current_index truthy negb andb].
    destruct (Z.gtb_spec (current_index s + 1) max_tries) as [Hgt|Hle].
    + apply pass_sleep; auto.
    + apply pass_collide; auto.
  - cbn [next_uid current_index].
    destruct (negb (truthy (Some (cand w s)))
              && (current_index s >? max_tries)) eqn:Hex.
    + apply andb_true_iff in Hex as [Hz Hgt].
      apply negb_true_iff in Hz.
      assert (Hc : cand w s = 0).
      { simpl in Hz. apply negb_false_iff in Hz. now apply Z.eqb_eq. }
      rewrite Hc. apply pass_beyond; auto.
      now apply Z.gtb_lt in Hgt.
    + apply pass_keep; auto.
Qed.

(** The body as equations, for the two ways that matter. *)
Lemma body_keep (s : loop_state) (w : world) :
  truthy last_uid && eqb_obj last_uid (Some (cand w s)) = false ->
  cand w s <> 0 ->
  body s w = ({| current_index := current_index s;
                 next_uid := Some (cand w s) |}, tick w).
Proof.
  intros Hcol Hnz. unfold loop_body, time_ms. cbv zeta.
  cbn [next_uid current_index]. rewrite Hcol.
  cbn [next_uid current_index].
  apply truthy_Some in Hnz. now rewrite Hnz.
Qed.

Lemma body_collide (s : loop_state) (w : world) :
  truthy last_uid = true ->
  last_uid = Some (cand w s) ->
  body s w
  = if current_index s + 1 >? max_tries
    then ({| current_index := 0; next_uid := None |},
          emit (Sleep 500) (tick w))
    else ({| current_index := current_index s + 1; next_uid := None |},
          tick w).
Proof.
  intros Ht Heq. unfold loop_body, time_ms. cbv zeta.
  cbn [next_uid current_index]. rewrite Ht.
  assert (Hb : eqb_obj last_uid (Some (cand w s)) = true)
    by now apply eqb_obj_true.
  rewrite Hb. reflexivity.
Qed.

(** Unfolding the [while] once. *)
Lemma loop_exit (fuel : nat) (s : loop_state) (w : world) :
  loop_guard s = false -> loop fuel s w = Some (s, w).
Proof. intros H. destruct fuel; simpl; now rewrite H. Qed.

Lemma loop_step (fuel : nat) (s : loop_state) (w : world) :
  loop_guard s = true ->
  loop (S fuel) s w = loop fuel (fst (body s w)) (snd (body s w)).
Proof.
  intros H. simpl. rewrite H. now destruct (body s w).
Qed.

(** Invariants of the loop are established at its exit. *)
Lemma loop_invariant (P : loop_state -> world -> Prop) :
  (forall s w, P s w -> loop_guard s = true ->
               P (fst (body s w)) (snd (body s w))) ->
  forall fuel s w s' w',
    P s w -> loop fuel s w = Some (s', w') ->
    P s' w' /\ loop_guard s' = false.
Proof.
  intros Hstep fuel. induction fuel as [|fuel IH]; intros s w s' w' HP Hrun.
  - simpl in Hrun. destruct (loop_guard s) eqn:Hg; [discriminate|].
    now inversion Hrun; subst.
  - destruct (loop_guard s) eqn:Hg.
    + rewrite loop_step in Hrun by assumption.
      eapply IH; [|exact Hrun]. now apply Hstep.
    + rewrite loop_exit in Hrun by assumption.
      now inversion Hrun; subst.
Qed.

(** More fuel does not change a finished run. *)
Lemma loop_fuel_mono (fuel : nat) :
  forall extra s w r,
    loop fuel s w = Some r -> loop (fuel + extra) s w = Some r.
Proof.
  induction fuel as [|fuel IH]; intros extra s w r Hrun.
  - simpl in Hrun. destruct (loop_guard s) eqn:Hg; [discriminate|].
    now rewrite loop_exit.
  - destruct (loop_guard s) eqn:Hg.
    + rewrite loop_step in Hrun by assumption.
      change (S fuel + extra)%nat with (S (fuel + extra)).
      rewrite loop_step by assumption. now apply IH.
    + rewrite loop_exit in Hrun by assumption.
      now rewrite loop_exit.
Qed.

Abbreviation reached := (Uid.reached E deployment_context last_uid ip).

Lemma reached_start (w0 : world) :
  reached w0 {| current_index := 0; next_uid := None |} w0.
Proof.
  repeat split; cbn; auto; discriminate.
Qed.

Lemma keep_not_last (c : Z) :
  truthy last_uid && eqb_obj last_uid (Some c) = false ->
  c <> 0 -> Some c <> last_uid.
Proof.
  intros Hcol Hc Heq. rewrite <- Heq in Hcol.
  apply andb_false_iff in Hcol as [H|H].
  - apply truthy_Some in Hc. congruence.
  - assert (eqb_obj (Some c) (Some c) = true) by now apply eqb_obj_true.
    congruence.
Qed.

Lemma reached_body (w0 : world) (s : loop_state) (w : world) :
  reached w0 s w -> loop_guard s = true ->
  reached w0 (fst (body s w)) (snd (body s w)).
Proof.
  intros (Hev & Htk & Hidx & _) Hg.
  apply andb_true_iff in Hg as [Hle _]. apply Z.leb_le in Hle.
  unfold max_tries in *.
  destruct (loop_body_pass s w) as [Hcol Hex|Ht Heq Hi|Ht Heq Hi|Hcol Hc Hi];
    cbn [fst snd]; unfold reached, tick, emit; cbn.
  - split; [assumption|]. split; [lia|]. split; [assumption|].
    intros v Hv. inversion Hv; subst v. split.
    + exists (ticks w). split; [lia|reflexivity].
    + now apply keep_not_last.
  - split; [assumption|]. split; [lia|]. split; [|discriminate].
    destruct Hidx as [H0|[H1 [now0 Hlast]]].
    + right. split; [lia|]. exists (clock E (ticks w)).
      now rewrite Heq, H0.
    + exfalso. rewrite Hlast in Heq. inversion Heq as [Hc].
      rewrite H1, !candidate_arith in Hc. lia.
  - exfalso. unfold max_tries in Hi.
    destruct Hidx as [H0|[H1 _]]; lia.
  - exfalso. unfold max_tries in Hi. lia.
Qed.

Lemma loop_reached (fuel : nat) (w0 : world) (s : loop_state) (w : world) :
  loop fuel {| current_index := 0; next_uid := None |} w0 = Some (s, w) ->
  reached w0 s w /\ truthy (next_uid s) = true.
Proof.
  intros Hrun.
  destruct (loop_invariant (reached w0) (reached_body w0) fuel _ _ _ _
              (reached_start w0) Hrun) as [Hr Hg].
  split; [exact Hr|].
  destruct Hr as (_ & _ & Hidx & _).
  apply andb_false_iff in Hg as [Hg|Hg].
  - apply Z.leb_gt in Hg. unfold max_tries in Hg.
    destruct Hidx as [H0|[H1 _]]; lia.
  - now apply negb_false_iff in Hg.
Qed.

(** With every clock reading after the epoch offset and non-negative
    low fields, candidates are positive and two passes are enough. *)
Hypothesis clock_after_offset : forall k, current_time_offset < clock E k.
Hypothesis context_nonneg : 0 <= deployment_context.
Hypothesis ip_nonneg : 0 <= ip.

Lemma candidate_pos (k : nat) (index : Z) :
  0 <= index -> 0 < candidate deployment_context ip (clock E k) index.
Proof.
  intros Hi. rewrite candidate_arith.
  specialize (clock_after_offset k). unfold current_time_offset in *. lia.
Qed.

Lemma kept_exits (s : loop_state) (w : world) :
  0 <= current_index s ->
  next_uid (fst (body s w)) <> None ->
  loop_guard (fst (body s w)) = false.
Proof.
  intros Hi Hn. unfold loop_guard. apply andb_false_iff. right.
  apply negb_false_iff.
  pose proof (candidate_pos (ticks w) _ Hi) as Hpos.
  destruct (loop_body_pass s w); cbn [fst next_uid] in *;
    try congruence; try lia.
  apply truthy_Some. lia.
Qed.

Lemma discarded (s : loop_state) (w : world) :
  current_index s < max_tries ->
  next_uid (fst (body s w)) = None ->
  current_index (fst (body s w)) = current_index s + 1
  /\ last_uid = Some (cand w s).
Proof.
  intros Hi Hn.
  destruct (loop_body_pass s w); cbn [fst next_uid current_index] in *;
    try discriminate; try lia.
  split; [reflexivity|assumption].
Qed.

Lemma loop_two_passes (w0 : world) :
  exists s w,
    loop 2 {| current_index := 0; next_uid := None |} w0 = Some (s, w).
Proof.
  set (s0 := {| current_index := 0; next_uid := None |}).
  rewrite loop_step by reflexivity.
  destruct (next_uid (fst (body s0 w0))) as [c|] eqn:Hn.
  - eexists _, _. apply loop_exit. apply kept_exits; [cbn; lia|].
    congruence.
  - destruct (discarded s0 w0) as [Hi1 Hlast]; [reflexivity|exact Hn|].
    cbn [current_index s0] in Hi1, Hlast.
    set (s1 := fst (body s0 w0)) in *. set (w1 := snd (body s0 w0)).
    assert (Hg : loop_guard s1 = true).
    { unfold loop_guard. now rewrite Hi1, Hn. }
    rewrite loop_step by exact Hg.
    eexists _, _. apply loop_exit. apply kept_exits; [lia|].
    intros Hn2.
    destruct (discarded s1 w1) as [_ Hlast2];
      [rewrite Hi1; reflexivity|exact Hn2|].
    rewrite Hlast in Hlast2. inversion Hlast2 as [Hc].
    rewrite Hi1, !candidate_arith in Hc. lia.
Qed.

End Loop.

End UidLoop.

(** ** The identifier generator against its specification *)

Module UidSpec.
Import Uid UidLoop.

(** How a finished call came about: a lookup or the octet raised, or the
    loop ran to its exit holding a truthy candidate. *)
Lemma generate_run fuel E dc last w out w' :
  generate_jacs_uid fuel E dc last w = Some (out, w') ->
  (exists e, out = Raise e /\ w' = w
             /\ (resolve E = Raise e
                 \/ exists ipa, resolve E = Ok ipa
                                /\ ip_component ipa = Raise e))
  \/ (exists ipa n s,
        resolve E = Ok ipa
        /\ int_of_str (last_item (split "." ipa)) = Some n
        /\ while_loop fuel E dc last (Z.land n 255)
             {| current_index := 0; next_uid := None |} w = Some (s, w')
        /\ out = Ok (next_uid s)
        /\ reached E dc last (Z.land n 255) w s w'
        /\ truthy (next_uid s) = true).
Proof.
  unfold generate_jacs_uid. intros H.
  destruct (resolve E) as [ipa|e] eqn:Hres.
  2:{ inversion H; subst. left. exists e. auto. }
  unfold ip_component in *.
  destruct (int_of_str (last_item (split "." ipa))) as [n|] eqn:Hint.
  2:{ inversion H; subst. left. eexists. split; [reflexivity|].
      split; [reflexivity|]. right. exists ipa. rewrite Hint. auto. }
  destruct (while_loop fuel E dc last (Z.land n 255) _ w)
    as [[s w1]|] eqn:Hloop; [|discriminate].
  destruct (loop_reached _ _ _ _ _ _ _ _ Hloop) as [Hr Ht].
  unfold after_loop in H. rewrite Ht in H. cbn in H.
  inversion H; subst. right. exists ipa, n, s. auto 10.
Qed.

Lemma land_255_range (n : Z) : 0 <= Z.land n 255 < 256.
Proof.
  change 255 with (Z.ones 8). rewrite Z.land_ones by lia.
  apply Z.mod_pos_bound. lia.
Qed.

(** C1: a value that [generate_jacs_uid] returns is never the
    [last_uid] it was given, whatever the clock and the host do and also
    for [last_uid = 0]; it is a non-zero integer.  A call whose clock
    readings are all after the epoch offset, with a non-negative
    deployment context and a host that resolves to a numeric last octet,
    returns within two passes of the loop. *)
Theorem generate_jacs_uid_never_last_uid (E : env) (dc : Z)
    (last_uid : option Z) (w : world) :
  (forall fuel r w',
      generate_jacs_uid fuel E dc last_uid w = Some (Ok r, w') ->
      r <> last_uid /\ exists v, r = Some v /\ v <> 0)
  /\ ((forall k, current_time_offset < clock E k) ->
      0 <= dc ->
      (exists ipa ip, resolve E = Ok ipa /\ ip_component ipa = Ok ip) ->
      forall fuel, (2 <= fuel)%nat ->
        exists v w',
          generate_jacs_uid fuel E dc last_uid w = Some (Ok (Some v), w')
          /\ Some v <> last_uid).
Proof.
  assert (Hsafe : forall fuel r w',
      generate_jacs_uid fuel E dc last_uid w = Some (Ok r, w') ->
      r <> last_uid /\ exists v, r = Some v /\ v <> 0).
  { intros fuel r w' Hrun.
    destruct (generate_run _ _ _ _ _ _ _ Hrun)
      as [(e & He & _)|(ipa & n & s & _ & _ & _ & Hout & Hr & Ht)];
      [discriminate|].
    inversion Hout; subst r.
    destruct (truthy_true _ Ht) as (v & Hv & Hnz).
    destruct Hr as (_ & _ & _ & Hheld).
    destruct (Hheld v Hv) as [_ Hne].
    rewrite Hv. split; [now apply Hne|eauto]. }
  split; [exact Hsafe|].
  intros Hclock Hdc (ipa & ip & Hres & Hip) fuel Hfuel.
  assert (Hipn : 0 <= ip).
  { unfold ip_component in Hip.
    destruct (int_of_str _) as [n|]; [|discriminate].
    inversion Hip. apply land_255_range. }
  destruct (loop_two_passes E dc last_uid ip Hclock Hdc Hipn w)
    as (s & w' & Hloop).
  apply loop_fuel_mono with (extra := (fuel - 2)%nat) in Hloop.
  replace (2 + (fuel - 2))%nat with fuel in Hloop by lia.
  assert (Hrun : generate_jacs_uid fuel E dc last_uid w
                 = Some (after_loop s w')).
  { unfold generate_jacs_uid. now rewrite Hres, Hip, Hloop. }
  destruct (loop_reached _ _ _ _ _ _ _ _ Hloop) as [_ Ht].
  unfold after_loop in Hrun. rewrite Ht in Hrun. cbn in Hrun.
  destruct (Hsafe _ _ _ Hrun) as [Hne (v & Hv & _)].
  exists v, w'. rewrite <- Hv. split; [exact Hrun|exact Hne].
Qed.

(** The theorem at a host 10.36.13.27, a clock one millisecond after
    the offset and [last_uid] the identifier of that millisecond. *)
Lemma generate_jacs_uid_never_last_uid_witness :
  Some 4198939 <> Some 4194843
  /\ exists v w',
       generate_jacs_uid 2 (fixed_env "10.36.13.27" 921700000001) 2
         (Some 4194843) world0 = Some (Ok (Some v), w')
       /\ Some v <> Some 4194843.
Proof.
  pose proof (generate_jacs_uid_never_last_uid
                (fixed_env "10.36.13.27" 921700000001) 2
                (Some 4194843) world0) as [Hsafe Hlive].
  split.
  - apply (Hsafe 5%nat (Some 4198939) {| ticks := 2; events := [] |}).
    reflexivity.
  - apply Hlive.
    + intros k. reflexivity.
    + lia.
    + exists "10.36.13.27", 27. split; reflexivity.
    + lia.
Defined.

(** The packed fields of a candidate whose low fields are in range. *)
Lemma fields_of_candidate (dc ip now index : Z) :
  0 <= ip < 256 -> 0 <= dc < 16 -> 0 <= index < 1024 ->
  host_field (candidate dc ip now index) = ip
  /\ context_field (candidate dc ip now index) = dc
  /\ index_field (candidate dc ip now index) = index
  /\ time_field (candidate dc ip now index) = now - current_time_offset.
Proof.
  intros Hip Hdc Hidx. rewrite candidate_arith.
  unfold host_field, context_field, index_field, time_field,
    current_time_offset.
  set (t := now - 921700000000).
  change 255 with (Z.ones 8). change 15 with (Z.ones 4).
  change 1023 with (Z.ones 10).
  rewrite !Z.land_ones, !Z.shiftr_div_pow2 by lia.
  change (2 ^ 8) with 256. change (2 ^ 4) with 16.
  change (2 ^ 10) with 1024. change (2 ^ 12) with 4096.
  change (2 ^ 22) with 4194304.
  assert (H8 : (t * 4194304 + index * 4096 + dc * 256 + ip) / 256
               = t * 16384 + index * 16 + dc).
  { symmetry. apply Z.div_unique with (r := ip); lia. }
  assert (H12 : (t * 4194304 + index * 4096 + dc * 256 + ip) / 4096
                = t * 1024 + index).
  { symmetry. apply Z.div_unique with (r := dc * 256 + ip); lia. }
  assert (H22 : (t * 4194304 + index * 4096 + dc * 256 + ip) / 4194304
                = t).
  { symmetry.
    apply Z.div_unique with (r := index * 4096 + dc * 256 + ip); lia. }
  rewrite H8, H12, H22. repeat split.
  - symmetry. apply Z.mod_unique with (q := t * 16384 + index * 16 + dc); lia.
  - symmetry. apply Z.mod_unique with (q := t * 1024 + index); lia.
  - symmetry. apply Z.mod_unique with (q := t); lia.
Qed.

(** C2: in every pass of the loop the candidate is
    [((now - 921700000000) << 22) + (index << 12) + (context << 8) + host]
    for the clock reading and the index of that pass (a pass that holds
    no candidate afterwards discarded it for being [last_uid]); and the
    value a call returns is that sum for one of the call's clock
    readings, an index within 0..1023 and the last dotted field of the
    resolved address masked with [0xFF]. *)
Theorem candidate_formula (E : env) (dc : Z) (last_uid : option Z) :
  (forall ip s w,
      let uid := Z.shiftl (clock E (ticks w) - 921700000000) 22
                 + Z.shiftl (current_index s) 12 + Z.shiftl dc 8 + ip in
      match next_uid (fst (loop_body E dc last_uid ip s w)) with
      | Some c => c = uid
      | None => last_uid = Some uid
      end)
  /\ (forall fuel w r w',
        generate_jacs_uid fuel E dc last_uid w = Some (Ok r, w') ->
        exists ipa n k index,
          resolve E = Ok ipa
          /\ int_of_str (last_item (split "." ipa)) = Some n
          /\ (ticks w <= k < ticks w')%nat
          /\ 0 <= index <= 1023
          /\ r = Some (Z.shiftl (clock E k - 921700000000) 22
                       + Z.shiftl index 12 + Z.shiftl dc 8
                       + Z.land n 255)).
Proof.
  split.
  - intros ip s w uid.
    destruct (loop_body_pass E dc last_uid ip s w);
      cbn [fst next_uid]; try reflexivity; try assumption.
    symmetry. assumption.
  - intros fuel w r w' Hrun.
    destruct (generate_run _ _ _ _ _ _ _ Hrun)
      as [(e & He & _)|(ipa & n & s & Hres & Hint & _ & Hout & Hr & Ht)];
      [discriminate|].
    inversion Hout; subst r.
    destruct (truthy_true _ Ht) as (v & Hv & _).
    destruct Hr as (_ & _ & Hidx & Hheld).
    destruct (Hheld v Hv) as [(k & Hk & Hc) _].
    exists ipa, n, k, (current_index s).
    split; [assumption|]. split; [assumption|]. split; [lia|].
    split; [destruct Hidx as [H0|[H1 _]]; lia|].
    now rewrite Hv, Hc.
Qed.

Lemma candidate_formula_witness :
  exists ipa n k index,
    resolve (fixed_env "10.36.13.27" 921700000001) = Ok ipa
    /\ int_of_str (last_item (split "." ipa)) = Some n
    /\ (0 <= k < 2)%nat
    /\ 0 <= index <= 1023
    /\ Some 4198939
       = Some (Z.shiftl (921700000001 - 921700000000) 22
               + Z.shiftl index 12 + Z.shiftl 2 8 + Z.land n 255).
Proof.
  apply (proj2 (candidate_formula (fixed_env "10.36.13.27" 921700000001)
                  2 (Some 4194843))
           5%nat world0 (Some 4198939) {| ticks := 2; events := [] |}).
  reflexivity.
Defined.

(** C4, as stated, fails for a deployment context that does not fit
    four bits, which the code accepts unchecked: called with context 18
    on host 10.36.13.27 one millisecond after the epoch offset, the
    function returns 4198939, whose bits 8-11 read 2; bits 0-7 are the
    host component 27. *)
Lemma fields_round_trip_counterexample :
  generate_jacs_uid 3 (fixed_env "10.36.13.27" 921700000001) 18 None world0
  = Some (Ok (Some 4198939), {| ticks := 1; events := [] |})
  /\ ip_component "10.36.13.27" = Ok 27
  /\ Z.land 4198939 255 = 27
  /\ Z.land (Z.shiftr 4198939 8) 15 = 2
  /\ Z.land (Z.shiftr 4198939 8) 15 <> 18.
Proof.
  split; [reflexivity|]. split; [reflexivity|]. split; [reflexivity|].
  split; [reflexivity|]. discriminate.
Qed.

(** C4, amended: bits 0-7 of a returned identifier are the host
    component computed for the call, whatever the deployment context;
    bits 8-11 are the deployment context of the call exactly when that
    context lies within 0..15. *)
Theorem fields_round_trip (fuel : nat) (E : env) (dc : Z)
    (last_uid : option Z) (w : world) (r : option Z) (w' : world) :
  generate_jacs_uid fuel E dc last_uid w = Some (Ok r, w') ->
  exists v ipa ip,
    r = Some v /\ resolve E = Ok ipa /\ ip_component ipa = Ok ip
    /\ Z.land v 255 = ip
    /\ (Z.land (Z.shiftr v 8) 15 = dc <-> 0 <= dc < 16).
Proof.
  intros Hrun.
  destruct (generate_run _ _ _ _ _ _ _ Hrun)
    as [(e & He & _)|(ipa & n & s & Hres & Hint & _ & Hout & Hr & Ht)];
    [discriminate|].
  inversion Hout; subst r.
  destruct (truthy_true _ Ht) as (v & Hv & _).
  destruct Hr as (_ & _ & Hidx & Hheld).
  destruct (Hheld v Hv) as [(k & _ & Hc) _].
  exists v, ipa, (Z.land n 255).
  split; [assumption|]. split; [assumption|].
  split; [unfold ip_component; now rewrite Hint|].
  pose proof (land_255_range n) as Hrange.
  split.
  - rewrite Hc, candidate_arith.
    set (h := Z.land n 255) in *.
    change 255 with (Z.ones 8). rewrite Z.land_ones by lia.
    change (2 ^ 8) with 256. symmetry.
    apply Z.mod_unique
      with (q := (clock E k - 921700000000) * 16384
                 + current_index s * 16 + dc); lia.
  - split.
    + intros Hx. rewrite <- Hx. change 15 with (Z.ones 4).
      rewrite Z.land_ones by lia. apply Z.mod_pos_bound. lia.
    + intros Hdc.
      destruct (fields_of_candidate dc (Z.land n 255) (clock E k)
                  (current_index s)) as (_ & Hx & _).
      * exact Hrange.
      * exact Hdc.
      * destruct Hidx as [H0|[H1 _]]; lia.
      * rewrite Hc. exact Hx.
Qed.

(** The theorem at the second of two calls in one millisecond, with
    deployment context 2. *)
Lemma fields_round_trip_witness :
  exists v ipa ip,
    Some 4198939 = Some v
    /\ resolve (fixed_env "10.36.13.27" 921700000001) = Ok ipa
    /\ ip_component ipa = Ok ip
    /\ Z.land v 255 = ip
    /\ (Z.land (Z.shiftr v 8) 15 = 2 <-> 0 <= 2 < 16).
Proof.
  apply (fields_round_trip 5 (fixed_env "10.36.13.27" 921700000001) 2
           (Some 4194843) world0 (Some 4198939)
           {| ticks := 2; events := [] |}).
  reflexivity.
Defined.

(** C8: when the candidate of a pass equals a truthy [last_uid], the
    [while] loop discards it and goes on at once with the next pass:
    below index 1023 from the index one higher, with no candidate held,
    one more clock reading taken and nothing slept; at index 1023, where
    the incremented index exceeds [max_tries], after sleeping 500 ms and
    from index 0.  A pass sleeps in no other case.  For a call this
    means: given as [last_uid] the candidate of index 0 of its first
    clock reading, [generate_jacs_uid] reads the clock exactly twice,
    sleeps and prints nothing, and returns the candidate of index 1 of
    its second reading. *)
Theorem collision_retry (E : env) (dc : Z) (last_uid : option Z) (ip : Z) :
  (forall fuel s w,
      loop_guard s = true ->
      truthy last_uid = true ->
      last_uid = Some (candidate dc ip (clock E (ticks w))
                                 (current_index s)) ->
      (current_index s < 1023 ->
       while_loop (S fuel) E dc last_uid ip s w
       = while_loop fuel E dc last_uid ip
           {| current_index := current_index s + 1; next_uid := None |}
           {| ticks := S (ticks w); events := events w |})
      /\ (current_index s = 1023 ->
          while_loop (S fuel) E dc last_uid ip s w
          = while_loop fuel E dc last_uid ip
              {| current_index := 0; next_uid := None |}
              {| ticks := S (ticks w);
                 events := events w ++ [Sleep 500] |}))
  /\ (forall s w,
        loop_guard s = true ->
        let w' := snd (loop_body E dc last_uid ip s w) in
        events w' = events w
        \/ (events w' = events w ++ [Sleep 500]
            /\ current_index s = 1023
            /\ last_uid = Some (candidate dc ip (clock E (ticks w))
                                          (current_index s))))
  /\ (forall fuel ipa w,
        resolve E = Ok ipa ->
        ip_component ipa = Ok ip ->
        truthy last_uid = true ->
        last_uid = Some (candidate dc ip (clock E (ticks w)) 0) ->
        candidate dc ip (clock E (S (ticks w))) 1 <> 0 ->
        generate_jacs_uid (S (S fuel)) E dc last_uid w
        = Some (Ok (Some (candidate dc ip (clock E (S (ticks w))) 1)),
                {| ticks := S (S (ticks w)); events := events w |})).
Proof.
  assert (Hloop : forall fuel s w,
      loop_guard s = true ->
      truthy last_uid = true ->
      last_uid = Some (candidate dc ip (clock E (ticks w))
                                 (current_index s)) ->
      (current_index s < 1023 ->
       while_loop (S fuel) E dc last_uid ip s w
       = while_loop fuel E dc last_uid ip
           {| current_index := current_index s + 1; next_uid := None |}
           {| ticks := S (ticks w); events := events w |})
      /\ (current_index s = 1023 ->
          while_loop (S fuel) E dc last_uid ip s w
          = while_loop fuel E dc last_uid ip
              {| current_index := 0; next_uid := None |}
              {| ticks := S (ticks w);
                 events := events w ++ [Sleep 500] |})).
  { intros fuel s w Hg Ht Heq.
    rewrite (loop_step E dc last_uid ip fuel s w Hg).
    rewrite (body_collide E dc last_uid ip s w Ht Heq).
    destruct (Z.gtb_spec (current_index s + 1) max_tries) as [Hgt|Hngt];
      unfold max_tries in *; cbn [fst snd]; unfold emit, tick;
      cbn [ticks events].
    - split; [intros; exfalso; lia|]. intros _. reflexivity.
    - split; [|intros; exfalso; lia]. intros _. reflexivity. }
  split; [exact Hloop|]. split.
  - intros s w Hg w'. subst w'.
    apply andb_true_iff in Hg as [Hle _]. apply Z.leb_le in Hle.
    unfold max_tries in Hle.
    destruct (loop_body_pass E dc last_uid ip s w)
      as [Hcol Hex|Ht Heq Hi|Ht Heq Hi|Hcol Hc Hi];
      unfold max_tries in *; cbn [snd]; unfold emit, tick; cbn [events].
    + now left.
    + now left.
    + right. split; [reflexivity|]. split; [lia|assumption].
    + lia.
  - intros fuel ipa w Hres Hip Ht Heq Hnz.
    set (s0 := {| current_index := 0; next_uid := None |}).
    set (w1 := {| ticks := S (ticks w); events := events w |}).
    set (c1 := candidate dc ip (clock E (S (ticks w))) 1) in *.
    assert (Hrun : while_loop (S (S fuel)) E dc last_uid ip s0 w
                   = Some ({| current_index := 1; next_uid := Some c1 |},
                           {| ticks := S (S (ticks w));
                              events := events w |})).
    { destruct (Hloop (S fuel) s0 w eq_refl Ht Heq) as [Hgo _].
      rewrite Hgo by (cbn; lia).
      cbn [current_index s0]. change (0 + 1) with 1.
      rewrite loop_step by reflexivity.
      rewrite body_keep; cbn [current_index ticks w1]; fold c1.
      - cbn [fst snd]. unfold tick. cbn [ticks events w1].
        apply loop_exit. unfold loop_guard. cbn [next_uid current_index].
        apply truthy_Some in Hnz. rewrite Hnz. now rewrite andb_false_r.
      - apply andb_false_iff. right.
        destruct (eqb_obj last_uid (Some c1)) eqn:Hx; [|reflexivity].
        apply eqb_obj_true in Hx. rewrite Heq in Hx.
        inversion Hx as [Hc]. unfold c1 in Hc.
        rewrite !candidate_arith in Hc. lia.
      - exact Hnz. }
    unfold generate_jacs_uid. rewrite Hres, Hip. fold s0. rewrite Hrun.
    unfold after_loop. cbn [next_uid].
    apply truthy_Some in Hnz. now rewrite Hnz.
Qed.

(** The theorem at two calls in one millisecond on host 10.36.13.27 (the
    second call is given the identifier 4194843 of the first and returns
    4198939), and in the loop at index 1023 with [last_uid] the
    candidate of that index. *)
Lemma collision_retry_witness :
  generate_jacs_uid 2 (fixed_env "10.36.13.27" 921700000001) 2
    (Some 4194843) world0
  = Some (Ok (Some 4198939), {| ticks := 2; events := [] |})
  /\ while_loop 2 (fixed_env "10.36.13.27" 921700000001) 2
       (Some 4194843) 27 {| current_index := 0; next_uid := None |} world0
     = while_loop 1 (fixed_env "10.36.13.27" 921700000001) 2
         (Some 4194843) 27 {| current_index := 0 + 1; next_uid := None |}
         {| ticks := 1; events := [] |}
  /\ while_loop 2 (fixed_env "10.36.13.27" 921700000001) 2
       (Some 8385051) 27 {| current_index := 1023; next_uid := None |}
       world0
     = while_loop 1 (fixed_env "10.36.13.27" 921700000001) 2
         (Some 8385051) 27 {| current_index := 0; next_uid := None |}
         {| ticks := 1; events := [] ++ [Sleep 500] |}.
Proof.
  split; [|split].
  - apply (proj2 (proj2 (collision_retry
                           (fixed_env "10.36.13.27" 921700000001)
                           2 (Some 4194843) 27))
             0%nat "10.36.13.27" world0);
      try reflexivity.
    discriminate.
  - apply (proj1 (collision_retry (fixed_env "10.36.13.27" 921700000001)
                    2 (Some 4194843) 27)
             1%nat {| current_index := 0; next_uid := None |} world0);
      try reflexivity.
  - apply (proj1 (collision_retry (fixed_env "10.36.13.27" 921700000001)
                    2 (Some 8385051) 27)
             1%nat {| current_index := 1023; next_uid := None |} world0);
      try reflexivity.
Defined.

(** C9: when looking up the local host name raises an [Exception], the
    address is the result of looking up [localhost]; if that lookup
    answers with a numeric last field, the call cannot raise, and bits
    0-7 of the identifier it returns are that field of the loopback
    address masked with [0xFF]. *)
Theorem loopback_fallback (E : env) (e : exn) :
  (gethostname E = Raise e
   \/ exists hostname, gethostname E = Ok hostname
                       /\ gethostbyname E hostname = Raise e) ->
  is_Exception e = true ->
  resolve E = gethostbyname E "localhost"
  /\ forall ipa n,
       gethostbyname E "localhost" = Ok ipa ->
       int_of_str (last_item (split "." ipa)) = Some n ->
       forall fuel dc last_uid w out w',
         generate_jacs_uid fuel E dc last_uid w = Some (out, w') ->
         exists v, out = Ok (Some v) /\ Z.land v 255 = Z.land n 255.
Proof.
  intros Hfail Hexn.
  assert (Hres : resolve E = gethostbyname E "localhost").
  { unfold resolve.
    destruct Hfail as [Hn|(h & Hn & Hl)]; rewrite Hn; [|rewrite Hl];
      now rewrite Hexn. }
  split; [exact Hres|].
  intros ipa n Hlo Hint fuel dc last_uid w out w' Hrun.
  rewrite Hlo in Hres.
  destruct (generate_run _ _ _ _ _ _ _ Hrun)
    as [(e' & He & _ & [Hr|(ipa' & Hr & Hip)])
       |(ipa' & n' & s & Hr & Hint' & _ & Hout & Hreach & Ht)].
  - congruence.
  - rewrite Hres in Hr. inversion Hr; subst ipa'.
    unfold ip_component in Hip. rewrite Hint in Hip. discriminate.
  - rewrite Hres in Hr. inversion Hr; subst ipa'.
    rewrite Hint in Hint'. inversion Hint'; subst n'.
    destruct (truthy_true _ Ht) as (v & Hv & _).
    exists v. split; [now rewrite Hout, Hv|].
    destruct Hreach as (_ & _ & _ & Hheld).
    destruct (Hheld v Hv) as [(k & _ & Hc) _].
    rewrite Hc, candidate_arith.
    pose proof (land_255_range n) as Hrange.
    set (h := Z.land n 255) in *.
    change 255 with (Z.ones 8). rewrite Z.land_ones by lia.
    change (2 ^ 8) with 256. symmetry.
    apply Z.mod_unique
      with (q := (clock E k - 921700000000) * 16384
                 + current_index s * 16 + dc); lia.
Qed.

(** A host whose own name does not resolve. *)
Lemma loopback_fallback_witness :
  let E := {| gethostname := Ok "node7";
              gethostbyname := fun h =>
                if String.eqb h "localhost" then Ok "127.0.0.1"
                else Raise (OSError "Name or service not known");
              clock := fun _ => 921700000001 |} in
  resolve E = Ok "127.0.0.1"
  /\ exists v, Ok (Some 4194817) = Ok (Some v)
               /\ Z.land v 255 = Z.land 1 255.
Proof.
  intros E.
  destruct (loopback_fallback E (OSError "Name or service not known"))
    as [Hres Hcall].
  - right. exists "node7". split; reflexivity.
  - reflexivity.
  - split; [exact Hres|].
    apply (Hcall "127.0.0.1" 1 eq_refl eq_refl 3%nat 2 None world0
             (Ok (Some 4194817)) {| ticks := 1; events := [] |}).
    reflexivity.
Defined.

(** The retry loop never exits without an identifier.  A call that
    finishes either raised before the loop (a lookup, or the last field
    of the address not being a number) or returns a non-zero identifier;
    in both cases nothing was printed and nothing slept, so the
    statements after the loop that report exhaustion are not run. *)
Lemma loop_never_exhausted (fuel : nat) (E : env) (dc : Z)
    (last_uid : option Z) (w : world) (out : result (option Z))
    (w' : world) :
  generate_jacs_uid fuel E dc last_uid w = Some (out, w') ->
  events w' = events w
  /\ ((exists v, out = Ok (Some v) /\ v <> 0)
      \/ (exists e, out = Raise e
                    /\ (resolve E = Raise e
                        \/ exists ipa, resolve E = Ok ipa
                                       /\ ip_component ipa = Raise e))).
Proof.
  intros Hrun.
  destruct (generate_run _ _ _ _ _ _ _ Hrun)
    as [(e & He & Hw & Hwhy)
       |(ipa & n & s & _ & _ & _ & Hout & Hreach & Ht)].
  - subst w'. split; [reflexivity|]. right. exists e. auto.
  - destruct Hreach as (Hev & _). split; [exact Hev|]. left.
    destruct (truthy_true _ Ht) as (v & Hv & Hnz).
    exists v. split; [now rewrite Hout, Hv|exact Hnz].
Qed.

Lemma loop_never_exhausted_example :
  events {| ticks := 2; events := [] |} = events world0
  /\ ((exists v, Ok (Some 4198939) = Ok (Some v) /\ v <> 0)
      \/ (exists e, Ok (Some 4198939) = Raise e
                    /\ (resolve (fixed_env "10.36.13.27" 921700000001)
                        = Raise e
                        \/ exists ipa,
                             resolve (fixed_env "10.36.13.27" 921700000001)
                             = Ok ipa
                             /\ ip_component ipa = Raise e))).
Proof.
  apply (loop_never_exhausted 5 (fixed_env "10.36.13.27" 921700000001) 2
           (Some 4194843) world0).
  reflexivity.
Defined.


(** One call under a clock stuck at [now]: the candidate of index 0,
    or the candidate of index 1 when [last_uid] is the former. *)
Lemma call_fixed_clock (fuel : nat) (E : env) (dc : Z) (ipa : string)
    (ip now : Z) (last_uid : option Z) (w : world) :
  (forall k, clock E k = now) ->
  current_time_offset < now ->
  0 <= dc ->
  resolve E = Ok ipa -> ip_component ipa = Ok ip ->
  (2 <= fuel)%nat ->
  exists w',
    generate_jacs_uid fuel E dc last_uid w
    = Some (Ok (Some (if eqb_obj last_uid (Some (candidate dc ip now 0))
                      then candidate dc ip now 1
                      else candidate dc ip now 0)), w')
    /\ events w' = events w.
Proof.
  intros Hclock Hnow Hdc Hres Hip Hfuel.
  assert (Hipn : 0 <= ip).
  { unfold ip_component in Hip.
    destruct (int_of_str _) as [n|]; [|discriminate].
    inversion Hip. apply land_255_range. }
  unfold current_time_offset in Hnow.
  assert (Hc0 : candidate dc ip now 0 <> 0) by (rewrite candidate_arith; lia).
  assert (Hc1 : candidate dc ip now 1 <> 0) by (rewrite candidate_arith; lia).
  assert (Hne : candidate dc ip now 1 <> candidate dc ip now 0)
    by (rewrite !candidate_arith; lia).
  set (s0 := {| current_index := 0; next_uid := None |}).
  assert (Hloop : exists s w',
             while_loop 2 E dc last_uid ip s0 w = Some (s, w')
             /\ events w' = events w
             /\ next_uid s
                = Some (if eqb_obj last_uid (Some (candidate dc ip now 0))
                        then candidate dc ip now 1
                        else candidate dc ip now 0)).
  { rewrite loop_step by reflexivity.
    destruct (eqb_obj last_uid (Some (candidate dc ip now 0))) eqn:Hcol.
    - apply eqb_obj_true in Hcol.
      assert (Ht : truthy last_uid = true)
        by (rewrite Hcol; now apply truthy_Some).
      rewrite (body_collide E dc last_uid ip s0 w Ht)
        by (cbn [current_index s0]; now rewrite Hclock).
      cbn [current_index s0 fst snd].
      change (0 + 1 >? max_tries) with false. cbv iota. cbn [fst snd].
      rewrite loop_step by reflexivity.
      rewrite body_keep; cbn [current_index]; rewrite Hclock;
        change (0 + 1) with 1.
      + cbn [fst snd]. eexists _, _. split.
        * apply loop_exit. unfold loop_guard. cbn [next_uid current_index].
          apply truthy_Some in Hc1. rewrite Hc1.
          now rewrite andb_false_r.
        * split; reflexivity.
      + apply andb_false_iff. right.
        destruct (eqb_obj last_uid (Some (candidate dc ip now 1))) eqn:Hx;
          [|reflexivity].
        apply eqb_obj_true in Hx. congruence.
      + exact Hc1.
    - rewrite body_keep; cbn [current_index s0]; rewrite Hclock.
      + cbn [fst snd]. eexists _, _. split.
        * apply loop_exit. unfold loop_guard. cbn [next_uid current_index].
          apply truthy_Some in Hc0. rewrite Hc0.
          now rewrite andb_false_r.
        * split; reflexivity.
      + rewrite Hcol. apply andb_false_r.
      + exact Hc0. }
  destruct Hloop as (s & w' & Hloop & Hev & Hnext).
  apply loop_fuel_mono with (extra := (fuel - 2)%nat) in Hloop.
  replace (2 + (fuel - 2))%nat with fuel in Hloop by lia.
  exists w'. split; [|exact Hev].
  unfold generate_jacs_uid. rewrite Hres, Hip. fold s0. rewrite Hloop.
  unfold after_loop. rewrite Hnext.
  assert (Htr : truthy (Some (if eqb_obj last_uid
                                    (Some (candidate dc ip now 0))
                              then candidate dc ip now 1
                              else candidate dc ip now 0)) = true).
  { apply truthy_Some. now destruct (eqb_obj _ _). }
  now rewrite Htr.
Qed.

(** A burst under a stuck clock flips between the two candidates. *)
Lemma burst_fixed_clock (fuel : nat) (E : env) (dc : Z) (ipa : string)
    (ip now : Z) :
  (forall k, clock E k = now) ->
  current_time_offset < now ->
  0 <= dc ->
  resolve E = Ok ipa -> ip_component ipa = Ok ip ->
  (2 <= fuel)%nat ->
  forall (count : nat) (last_uid : option Z) (w : world),
  exists w',
    burst fuel E dc count last_uid w
    = Some (if eqb_obj last_uid (Some (candidate dc ip now 0))
            then alternate (Some (candidate dc ip now 1))
                           (Some (candidate dc ip now 0)) count
            else alternate (Some (candidate dc ip now 0))
                           (Some (candidate dc ip now 1)) count, w')
    /\ events w' = events w.
Proof.
  intros Hclock Hnow Hdc Hres Hip Hfuel count.
  assert (Hne : candidate dc ip now 1 <> candidate dc ip now 0)
    by (rewrite !candidate_arith; lia).
  induction count as [|count IH]; intros last_uid w.
  - exists w. cbn. now destruct (eqb_obj _ _).
  - destruct (call_fixed_clock fuel E dc ipa ip now last_uid w
                Hclock Hnow Hdc Hres Hip Hfuel) as (w1 & Hcall & Hev1).
    cbn [burst]. rewrite Hcall.
    destruct (eqb_obj last_uid (Some (candidate dc ip now 0))) eqn:Hcol.
    + destruct (IH (Some (candidate dc ip now 1)) w1) as (w2 & Hrest & Hev2).
      rewrite Hrest. exists w2. split; [|congruence].
      assert (Hx : eqb_obj (Some (candidate dc ip now 1))
                     (Some (candidate dc ip now 0)) = false).
      { destruct (eqb_obj (Some (candidate dc ip now 1))
                    (Some (candidate dc ip now 0))) eqn:Hy; [|reflexivity].
        apply eqb_obj_true in Hy. congruence. }
      now rewrite Hx.
    + destruct (IH (Some (candidate dc ip now 0)) w1) as (w2 & Hrest & Hev2).
      rewrite Hrest. exists w2. split; [|congruence].
      assert (Hx : eqb_obj (Some (candidate dc ip now 0))
                     (Some (candidate dc ip now 0)) = true)
        by now apply eqb_obj_true.
      now rewrite Hx.
Qed.

(** C3, as stated, fails: with the clock stuck one millisecond after
    the offset on host 10.36.13.27, three successive calls return index
    fields 0, 1, 0; the third call hands out the identifier of the
    first again. *)
Lemma burst_index_counterexample :
  burst 2 (fixed_env "10.36.13.27" 921700000001) 2 3 None world0
  = Some ([Some 4194843; Some 4198939; Some 4194843],
          {| ticks := 4; events := [] |})
  /\ map index_field [4194843; 4198939; 4194843] = [0; 1; 0]
  /\ ~ strictly_increasing (map index_field [4194843; 4198939; 4194843]).
Proof.
  split; [reflexivity|]. split; [reflexivity|].
  intros Hinc. specialize (Hinc 1%nat 1 0 eq_refl eq_refl). lia.
Qed.

(** C3, amended: under a clock stuck at a value after the offset, on a
    host that resolves and with a deployment context in 0..15, a burst
    of calls (the first without [last_uid], each next one given the
    result before) returns the candidates of index 0 and index 1 in
    turn, all with the time field of the stuck clock; the index reaches
    neither 2 nor the cap, and no call sleeps. *)
Theorem burst_alternates (fuel : nat) (E : env) (dc : Z) (ipa : string)
    (ip now : Z) (count : nat) (w : world) :
  (forall k, clock E k = now) ->
  921700000000 < now ->
  0 <= dc < 16 ->
  resolve E = Ok ipa -> ip_component ipa = Ok ip ->
  (2 <= fuel)%nat ->
  exists c0 c1 w',
    burst fuel E dc count None w
    = Some (alternate (Some c0) (Some c1) count, w')
    /\ events w' = events w
    /\ index_field c0 = 0 /\ index_field c1 = 1
    /\ time_field c0 = now - 921700000000
    /\ time_field c1 = now - 921700000000.
Proof.
  intros Hclock Hnow Hdc Hres Hip Hfuel.
  destruct (burst_fixed_clock fuel E dc ipa ip now Hclock Hnow
              (proj1 Hdc) Hres Hip Hfuel count None w) as (w' & Hb & Hev).
  cbn [eqb_obj] in Hb.
  assert (Hrange : 0 <= ip < 256).
  { unfold ip_component in Hip.
    destruct (int_of_str _) as [n|]; [|discriminate].
    inversion Hip. apply land_255_range. }
  exists (candidate dc ip now 0), (candidate dc ip now 1), w'.
  destruct (fields_of_candidate dc ip now 0 Hrange Hdc ltac:(lia))
    as (_ & _ & Hi0 & Ht0).
  destruct (fields_of_candidate dc ip now 1 Hrange Hdc ltac:(lia))
    as (_ & _ & Hi1 & Ht1).
  auto 10.
Qed.

Lemma burst_alternates_witness :
  exists c0 c1 w',
    burst 2 (fixed_env "10.36.13.27" 921700000001) 2 5 None world0
    = Some (alternate (Some c0) (Some c1) 5, w')
    /\ events w' = events world0
    /\ index_field c0 = 0 /\ index_field c1 = 1
    /\ time_field c0 = 921700000001 - 921700000000
    /\ time_field c1 = 921700000001 - 921700000000.
Proof.
  apply (burst_alternates 2 (fixed_env "10.36.13.27" 921700000001) 2
           "10.36.13.27" 27 921700000001 5 world0).
  - intros k. reflexivity.
  - lia.
  - lia.
  - reflexivity.
  - reflexivity.
  - lia.
Defined.

End UidSpec.

(** ** The paged listing against its specification *)

Module ListingSpec.
Import Listing.

Section Pulls.
Context {entry client : Type}.
Variable list_objects_v2 :
  client -> gmap string pyval -> result (response entry) * client.
Variable base_kwargs : gmap string pyval.

Abbreviation next' := (next list_objects_v2 base_kwargs).
Abbreviation pulls' := (pulls list_objects_v2 base_kwargs).

(** The cases of [next], one equation each. *)
Lemma next_fetching fuel token s3c kwargs resp s3c' :
  list_kwargs base_kwargs token = Ok kwargs ->
  list_objects_v2 s3c kwargs = (Ok resp, s3c') ->
  next' (S fuel) (Fetching token) s3c
  = next' fuel (Yielding (default [] (Contents resp)) resp) s3c'.
Proof. intros Hk Hl. cbn [next]. now rewrite Hk, Hl. Qed.

Lemma next_fetching_raise fuel token s3c kwargs e s3c' :
  list_kwargs base_kwargs token = Ok kwargs ->
  list_objects_v2 s3c kwargs = (Raise e, s3c') ->
  next' (S fuel) (Fetching token) s3c = Some (Raised e, Finished, s3c').
Proof. intros Hk Hl. cbn [next]. now rewrite Hk, Hl. Qed.

Lemma next_item fuel e rest resp s3c :
  next' (S fuel) (Yielding (e :: rest) resp) s3c
  = Some (Item e, Yielding rest resp, s3c).
Proof. reflexivity. Qed.

Lemma next_page_more fuel resp s3c :
  truthy_flag (IsTruncated resp) = true ->
  next' (S fuel) (Yielding [] resp) s3c
  = next' fuel (Fetching (NextContinuationToken resp)) s3c.
Proof. intros H. cbn [next]. now rewrite H. Qed.

Lemma next_page_last fuel resp s3c :
  truthy_flag (IsTruncated resp) = false ->
  next' (S fuel) (Yielding [] resp) s3c
  = Some (StopIteration, Finished, s3c).
Proof. intros H. cbn [next]. now rewrite H. Qed.

Lemma next_finished fuel s3c :
  next' (S fuel) Finished s3c = Some (StopIteration, Finished, s3c).
Proof. reflexivity. Qed.

(** More fuel does not change a [next()] that came back. *)
Lemma next_fuel_mono fuel :
  forall extra g s3c r,
    next' fuel g s3c = Some r -> next' (fuel + extra) g s3c = Some r.
Proof.
  induction fuel as [|fuel IH]; intros extra g s3c r H; [discriminate|].
  change (S fuel + extra)%nat with (S (fuel + extra)).
  destruct g as [token|[|e rest] resp|]; cbn [next] in *.
  - destruct (list_kwargs base_kwargs token) as [kwargs|e]; [|exact H].
    destruct (list_objects_v2 s3c kwargs) as [[resp|e] s3c'];
      [|exact H].
    now apply IH.
  - destruct (negb (truthy_flag (IsTruncated resp))); [exact H|].
    now apply IH.
  - exact H.
  - exact H.
Qed.

Lemma pulls_fuel_mono fuel extra n :
  forall g s3c r,
    pulls' fuel n g s3c = Some r -> pulls' (fuel + extra) n g s3c = Some r.
Proof.
  induction n as [|n IH]; intros g s3c r H; [exact H|].
  cbn [pulls] in *.
  destruct (next' fuel g s3c) as [[[o g'] s3c']|] eqn:Hn; [|discriminate].
  rewrite (next_fuel_mono _ extra _ _ _ Hn).
  destruct (pulls' fuel n g' s3c') as [[[os g''] s3c'']|] eqn:Hp;
    [|discriminate].
  now rewrite (IH _ _ _ Hp).
Qed.

(** Pulling [n + m] times is pulling [n] times and then [m] times. *)
Lemma pulls_app fuel n m g s3c os g' s3c' os' g'' s3c'' :
  pulls' fuel n g s3c = Some (os, g', s3c') ->
  pulls' fuel m g' s3c' = Some (os', g'', s3c'') ->
  pulls' fuel (n + m) g s3c = Some (os ++ os', g'', s3c'').
Proof.
  revert g s3c os. induction n as [|n IH]; intros g s3c os Hn Hm.
  - inversion Hn; subst. exact Hm.
  - cbn [pulls Nat.add] in *.
    destruct (next' fuel g s3c) as [[[o g1] s3c1]|]; [|discriminate].
    destruct (pulls' fuel n g1 s3c1) as [[[os1 g2] s3c2]|] eqn:Hp;
      [|discriminate].
    inversion Hn; subst.
    now rewrite (IH _ _ _ Hp Hm).
Qed.

(** The entries of a page come out one per [next()], in order, and
    the client is not touched meanwhile. *)
Lemma pulls_yielding fuel es resp s3c :
  pulls' (S fuel) (length es) (Yielding es resp) s3c
  = Some (map Item es, Yielding [] resp, s3c).
Proof.
  induction es as [|e es IH]; [reflexivity|].
  cbn [length pulls]. rewrite next_item, IH. reflexivity.
Qed.

(** A finished generator stays finished. *)
Lemma pulls_finished fuel k s3c :
  pulls' (S fuel) k Finished s3c
  = Some (repeat StopIteration k, Finished, s3c).
Proof.
  induction k as [|k IH]; [reflexivity|].
  cbn [pulls repeat]. rewrite next_finished, IH. reflexivity.
Qed.

Lemma pulls_cons fuel n g s3c o g1 s3c1 os g2 s3c2 :
  next' fuel g s3c = Some (o, g1, s3c1) ->
  pulls' fuel n g1 s3c1 = Some (os, g2, s3c2) ->
  pulls' fuel (S n) g s3c = Some (o :: os, g2, s3c2).
Proof. intros Hn Hp. cbn [pulls]. now rewrite Hn, Hp. Qed.

(** Only the keyword dictionary built from the token matters. *)
Lemma next_fetching_kwargs fuel token token' s3c :
  list_kwargs base_kwargs token = list_kwargs base_kwargs token' ->
  next' fuel (Fetching token) s3c = next' fuel (Fetching token') s3c.
Proof. intros H. destruct fuel; [reflexivity|]. cbn [next]. now rewrite H. Qed.

End Pulls.

Lemma list_kwargs_first (base_kwargs : gmap string pyval) :
  base_kwargs !! "MaxKeys" = None ->
  list_kwargs base_kwargs None = Ok (<["MaxKeys" := PInt 1000]> base_kwargs).
Proof. intros H. unfold list_kwargs. now rewrite H. Qed.

Lemma list_kwargs_token (base_kwargs : gmap string pyval) (token : string) :
  base_kwargs !! "MaxKeys" = None ->
  token <> "" ->
  list_kwargs base_kwargs (Some token)
  = Ok (<["ContinuationToken" := PStr token]>
          (<["MaxKeys" := PInt 1000]> base_kwargs)).
Proof.
  intros H Hne. unfold list_kwargs. rewrite H. cbn [truthy_str].
  apply String.eqb_neq in Hne. now rewrite Hne.
Qed.

Lemma list_kwargs_falsy (base_kwargs : gmap string pyval)
    (token : option string) :
  truthy_str token = false ->
  list_kwargs base_kwargs token = list_kwargs base_kwargs None.
Proof.
  intros H. unfold list_kwargs.
  destruct (base_kwargs !! "MaxKeys"); [reflexivity|].
  destruct token as [t|]; [|reflexivity]. now rewrite H.
Qed.

Lemma list_kwargs_ok (base_kwargs : gmap string pyval)
    (token : option string) :
  base_kwargs !! "MaxKeys" = None ->
  exists kwargs, list_kwargs base_kwargs token = Ok kwargs.
Proof.
  intros H. unfold list_kwargs. rewrite H.
  destruct token as [t|]; [|eauto].
  destruct (truthy_str (Some t)); eauto.
Qed.

(** C5: against the pages [{a, b}, truncated, token X] and [{c}, not
    truncated], the consumer gets a, b, c in that order and then the
    end of the sequence.  After the first two pulls one request has
    been made, the initial one; the second request, made during the
    third pull, is the initial one with [ContinuationToken] set to X;
    no further pull makes another. *)
Theorem two_pages {entry : Type} (a b c : entry)
    (base_kwargs : gmap string pyval) (token2 : option string)
    (fuel k : nat) :
  base_kwargs !! "MaxKeys" = None ->
  (3 <= fuel)%nat ->
  let page1 := {| Contents := Some [a; b]; IsTruncated := Some true;
                  NextContinuationToken := Some "X" |} in
  let page2 := {| Contents := Some [c]; IsTruncated := Some false;
                  NextContinuationToken := token2 |} in
  let first := <["MaxKeys" := PInt 1000]> base_kwargs in
  let second := <["ContinuationToken" := PStr "X"]> first in
  let s3c := {| pending := [Ok page1; Ok page2]; requests := [] |} in
  pulls scripted_list_objects_v2 base_kwargs fuel 2 get_all_s3_objects s3c
  = Some ([Item a; Item b], Yielding [] page1,
          {| pending := [Ok page2]; requests := [first] |})
  /\ pulls scripted_list_objects_v2 base_kwargs fuel (4 + k)
       get_all_s3_objects s3c
     = Some ([Item a; Item b; Item c; StopIteration]
             ++ repeat StopIteration k, Finished,
             {| pending := []; requests := [first; second] |})
  /\ second !! "ContinuationToken" = Some (PStr "X").
Proof.
  intros Hbase Hfuel page1 page2 first second s3c.
  destruct fuel as [|[|[|fuel]]]; try lia.
  pose proof (list_kwargs_first _ Hbase) as Hfirst.
  assert (Hsecond : list_kwargs base_kwargs (Some "X") = Ok second)
    by now apply list_kwargs_token.
  assert (Hn1 : next scripted_list_objects_v2 base_kwargs
                  (S (S (S fuel))) get_all_s3_objects s3c
                = Some (Item a, Yielding [b] page1,
                        {| pending := [Ok page2]; requests := [first] |})).
  { unfold get_all_s3_objects.
    now rewrite (next_fetching _ _ _ _ s3c first page1
                   {| pending := [Ok page2]; requests := [first] |}
                   Hfirst eq_refl). }
  split; [|split].
  - eapply pulls_cons; [exact Hn1|].
    eapply pulls_cons; [apply next_item|reflexivity].
  - change (4 + k)%nat with (S (S (S (S k)))).
    eapply pulls_cons; [exact Hn1|].
    eapply pulls_cons; [apply next_item|].
    eapply pulls_cons.
    { rewrite next_page_more by reflexivity.
      rewrite (next_fetching _ _ _ _
                 {| pending := [Ok page2]; requests := [first] |}
                 second page2
                 {| pending := []; requests := [first; second] |}
                 Hsecond eq_refl).
      apply next_item. }
    eapply pulls_cons; [now apply next_page_last|].
    apply pulls_finished.
  - apply lookup_insert_eq.
Qed.

Lemma two_pages_witness :
  pulls scripted_list_objects_v2 {["Bucket" := PStr "janelia-flylight"]} 3 4
    get_all_s3_objects
    {| pending :=
         [Ok {| Contents := Some ["a"; "b"]; IsTruncated := Some true;
                NextContinuationToken := Some "X" |};
          Ok {| Contents := Some ["c"]; IsTruncated := Some false;
                NextContinuationToken := None |}];
       requests := [] |}
  = Some ([Item "a"; Item "b"; Item "c"; StopIteration], Finished,
          {| pending := [];
             requests :=
               [<["MaxKeys" := PInt 1000]>
                  {["Bucket" := PStr "janelia-flylight"]};
                <["ContinuationToken" := PStr "X"]>
                  (<["MaxKeys" := PInt 1000]>
                     {["Bucket" := PStr "janelia-flylight"]})] |}).
Proof.
  apply (two_pages "a" "b" "c" {["Bucket" := PStr "janelia-flylight"]}
           None 3 0).
  - reflexivity.
  - lia.
Defined.

(** C6: when the first page is truncated and the second request raises,
    the consumer gets every entry of the first page, one per pull and in
    order; the pull after the last entry raises that exception; every
    later pull finds the generator finished.  Two requests were made
    and the rest of the script is never asked for. *)
Theorem error_on_second_request {entry : Type} (es : list entry)
    (token : option string) (e : exn)
    (rest : list (result (response entry)))
    (base_kwargs : gmap string pyval) (fuel k : nat) :
  base_kwargs !! "MaxKeys" = None ->
  (3 <= fuel)%nat ->
  let page1 := {| Contents := Some es; IsTruncated := Some true;
                  NextContinuationToken := token |} in
  let s3c := {| pending := Ok page1 :: Raise e :: rest; requests := [] |} in
  exists second,
    list_kwargs base_kwargs token = Ok second
    /\ pulls scripted_list_objects_v2 base_kwargs fuel (length es + 1 + k)
         get_all_s3_objects s3c
       = Some (map Item es ++ [Raised e] ++ repeat StopIteration k,
               Finished,
               {| pending := rest;
                  requests := [<["MaxKeys" := PInt 1000]> base_kwargs;
                               second] |}).
Proof.
  intros Hbase Hfuel page1 s3c.
  destruct fuel as [|[|[|fuel]]]; try lia.
  pose proof (list_kwargs_first _ Hbase) as Hfirst.
  destruct (list_kwargs_ok base_kwargs token Hbase) as [second Hsecond].
  exists second. split; [exact Hsecond|].
  set (first := <["MaxKeys" := PInt 1000]> base_kwargs) in *.
  set (s3c1 := {| pending := Raise e :: rest; requests := [first] |}).
  set (s3c2 := {| pending := rest; requests := [first; second] |}).
  assert (Hfetch : forall f,
             next scripted_list_objects_v2 base_kwargs (S f)
               (Fetching None) s3c
             = next scripted_list_objects_v2 base_kwargs f
                 (Yielding es page1) s3c1).
  { intros f.
    exact (next_fetching _ _ f None s3c first page1 s3c1 Hfirst eq_refl). }
  assert (Hfail : forall f,
             next scripted_list_objects_v2 base_kwargs (S (S f))
               (Yielding [] page1) s3c1
             = Some (Raised e, Finished, s3c2)).
  { intros f. rewrite next_page_more by reflexivity.
    exact (next_fetching_raise _ _ f token s3c1 second e s3c2
             Hsecond eq_refl). }
  unfold get_all_s3_objects.
  destruct es as [|x xs].
  - cbn [length Nat.add map app].
    eapply pulls_cons; [|apply pulls_finished].
    rewrite Hfetch. apply Hfail.
  - cbn [length Nat.add map app].
    eapply pulls_cons; [rewrite Hfetch; apply next_item|].
    replace (length xs + 1 + k)%nat with (length xs + S k)%nat by lia.
    apply pulls_app with (g' := Yielding [] page1) (s3c' := s3c1).
    + apply pulls_yielding.
    + eapply pulls_cons; [apply Hfail|apply pulls_finished].
Qed.

Lemma error_on_second_request_witness :
  exists second,
    list_kwargs {["Bucket" := PStr "janelia-flylight"]} (Some "X")
    = Ok second
    /\ pulls scripted_list_objects_v2
         {["Bucket" := PStr "janelia-flylight"]} 3
         (length ["a"; "b"] + 1 + 2) get_all_s3_objects
         {| pending :=
              [Ok {| Contents := Some ["a"; "b"]; IsTruncated := Some true;
                     NextContinuationToken := Some "X" |};
               Raise (OSError "connection reset");
               Ok {| Contents := Some ["c"]; IsTruncated := Some false;
                     NextContinuationToken := None |}];
            requests := [] |}
       = Some (map Item ["a"; "b"] ++ [Raised (OSError "connection reset")]
               ++ repeat StopIteration 2,
               Finished,
               {| pending :=
                    [Ok {| Contents := Some ["c"];
                           IsTruncated := Some false;
                           NextContinuationToken := None |}];
                  requests :=
                    [<["MaxKeys" := PInt 1000]>
                       {["Bucket" := PStr "janelia-flylight"]};
                     second] |}).
Proof.
  apply (error_on_second_request ["a"; "b"] (Some "X")
           (OSError "connection reset")
           [Ok {| Contents := Some ["c"]; IsTruncated := Some false;
                  NextContinuationToken := None |}]
           {["Bucket" := PStr "janelia-flylight"]} 3 2).
  - reflexivity.
  - lia.
Defined.

(** C10: after a page whose truncation flag is set and whose
    continuation token is absent (or empty), the keyword dictionary of
    the next request is the one of the initial request, and the
    generator goes on exactly as one that was never advanced: it neither
    ends nor raises there.  When the base arguments carry no
    [ContinuationToken], that request carries none either. *)
Theorem restart_without_token {entry client : Type}
    (list_objects_v2 :
       client -> gmap string pyval -> result (response entry) * client)
    (base_kwargs : gmap string pyval) (resp : response entry) :
  truthy_flag (IsTruncated resp) = true ->
  truthy_str (NextContinuationToken resp) = false ->
  list_kwargs base_kwargs (NextContinuationToken resp)
  = list_kwargs base_kwargs None
  /\ (forall fuel s3c,
        next list_objects_v2 base_kwargs (S fuel) (Yielding [] resp) s3c
        = next list_objects_v2 base_kwargs fuel get_all_s3_objects s3c)
  /\ (base_kwargs !! "MaxKeys" = None ->
      base_kwargs !! "ContinuationToken" = None ->
      exists kwargs,
        list_kwargs base_kwargs (NextContinuationToken resp) = Ok kwargs
        /\ kwargs = <["MaxKeys" := PInt 1000]> base_kwargs
        /\ kwargs !! "ContinuationToken" = None).
Proof.
  intros Htrunc Htoken.
  pose proof (list_kwargs_falsy base_kwargs _ Htoken) as Hsame.
  split; [exact Hsame|]. split.
  - intros fuel s3c. rewrite next_page_more by exact Htrunc.
    now apply next_fetching_kwargs.
  - intros Hmax Hct. eexists. split; [|split; [reflexivity|]].
    + rewrite Hsame. now apply list_kwargs_first.
    + rewrite lookup_insert_ne by discriminate. exact Hct.
Qed.

(** A service that keeps answering with a truncated page without token:
    the listing starts over with every request. *)
Lemma restart_without_token_witness :
  let page := {| Contents := Some ["a"; "b"]; IsTruncated := Some true;
                 NextContinuationToken := None |} in
  let base_kwargs : gmap string pyval :=
    {["Bucket" := PStr "janelia-flylight"]} in
  list_kwargs base_kwargs (NextContinuationToken page)
  = list_kwargs base_kwargs None
  /\ (forall fuel s3c,
        next (constant_list_objects_v2 page) base_kwargs (S fuel)
          (Yielding [] page) s3c
        = next (constant_list_objects_v2 page) base_kwargs fuel
            get_all_s3_objects s3c)
  /\ (exists kwargs,
        list_kwargs base_kwargs (NextContinuationToken page) = Ok kwargs
        /\ kwargs = <["MaxKeys" := PInt 1000]> base_kwargs
        /\ kwargs !! "ContinuationToken" = None)
  /\ pulls (constant_list_objects_v2 page) base_kwargs 3 5
       get_all_s3_objects 0%nat
     = Some ([Item "a"; Item "b"; Item "a"; Item "b"; Item "a"],
             Yielding ["b"] page, 3%nat).
Proof.
  intros page base_kwargs.
  destruct (restart_without_token (constant_list_objects_v2 page)
              base_kwargs page eq_refl eq_refl) as (Hsame & Hnext & Hkw).
  split; [exact Hsame|]. split; [exact Hnext|].
  split; [apply Hkw; reflexivity|]. reflexivity.
Defined.

End ListingSpec.

(** ** Facts about [split] *)

Module StrFacts.

(** [split] of a string with a separator in it. *)
Lemma split_nonempty (sep : ascii) (s : string) : split sep s <> [].
Proof.
  destruct s as [|c r]; cbn [split]; [discriminate|].
  destruct (Ascii.eqb c sep); [discriminate|].
  destruct (split sep r); discriminate.
Qed.

Lemma split_app (sep : ascii) (p q : string) :
  split sep (p ++ String sep q)%string = split sep p ++ split sep q.
Proof.
  induction p as [|c r IH]; simpl.
  - now rewrite Ascii.eqb_refl.
  - destruct (Ascii.eqb c sep); [now rewrite IH|].
    rewrite IH. pose proof (split_nonempty sep r) as Hne.
    destruct (split sep r) as [|h t]; [congruence|reflexivity].
Qed.

Lemma split_no_sep (sep : ascii) (q : string) :
  Str.contains sep q = false -> split sep q = [q].
Proof.
  induction q as [|c r IH]; cbn [split Str.contains]; [reflexivity|].
  intros H. apply orb_false_iff in H as [Hc Hr].
  rewrite Hc, (IH Hr). reflexivity.
Qed.

Lemma last_item_app (l : list string) (q : string) :
  last_item (l ++ [q]) = q.
Proof. unfold last_item. apply last_last. Qed.

Lemma contains_append (c : ascii) (a b : string) :
  Str.contains c (a +:+ b) = Str.contains c a || Str.contains c b.
Proof.
  induction a as [|d a IH]; simpl; [reflexivity|].
  now rewrite IH, orb_assoc.
Qed.

Lemma append_assoc (a b c : string) : (a +:+ b) +:+ c = a +:+ b +:+ c.
Proof.
  induction a as [|d a IH]; [reflexivity|].
  change (String d ((a +:+ b) +:+ c) = String d (a +:+ b +:+ c)).
  now f_equal.
Qed.

End StrFacts.

(** ** More about the identifiers *)

Module UidMore.
Import Uid UidLoop UidSpec StrFacts.

(** What a returned identifier is made of. *)
Lemma returned_candidate fuel E dc last_uid w v w' :
  generate_jacs_uid fuel E dc last_uid w = Some (Ok (Some v), w') ->
  exists ipa n k index,
    resolve E = Ok ipa
    /\ int_of_str (last_item (split "." ipa)) = Some n
    /\ (ticks w <= k < ticks w')%nat
    /\ (index = 0 \/ index = 1)
    /\ v = candidate dc (Z.land n 255) (clock E k) index.
Proof.
  intros Hrun.
  destruct (generate_run _ _ _ _ _ _ _ Hrun)
    as [(e & He & _)|(ipa & n & s & Hres & Hint & _ & Hout & Hr & Ht)];
    [discriminate|].
  inversion Hout as [Hv]. symmetry in Hv.
  destruct Hr as (_ & _ & Hidx & Hheld).
  destruct (Hheld v Hv) as [(k & Hk & Hc) _].
  exists ipa, n, k, (current_index s).
  split; [assumption|]. split; [assumption|]. split; [assumption|].
  split; [|assumption]. destruct Hidx as [H0|[H1 _]]; auto.
Qed.

(** X1: under a strictly increasing clock, a call returns a smaller
    identifier than any later call on the same host, whatever
    [last_uid] and (4-bit) deployment contexts the two calls get. *)
Theorem later_call_greater (fuel1 fuel2 : nat) (E : env) (dc1 dc2 : Z)
    (last1 last2 : option Z) (w w1 w2 : world) (v1 v2 : Z) :
  (forall j k, (j < k)%nat -> clock E j < clock E k) ->
  0 <= dc1 < 16 -> 0 <= dc2 < 16 ->
  generate_jacs_uid fuel1 E dc1 last1 w = Some (Ok (Some v1), w1) ->
  generate_jacs_uid fuel2 E dc2 last2 w1 = Some (Ok (Some v2), w2) ->
  v1 < v2.
Proof.
  intros Hclock Hdc1 Hdc2 Hrun1 Hrun2.
  destruct (returned_candidate _ _ _ _ _ _ _ Hrun1)
    as (ipa1 & n1 & k1 & i1 & Hres1 & Hint1 & Hk1 & Hi1 & Hv1).
  destruct (returned_candidate _ _ _ _ _ _ _ Hrun2)
    as (ipa2 & n2 & k2 & i2 & Hres2 & Hint2 & Hk2 & Hi2 & Hv2).
  rewrite Hres1 in Hres2. inversion Hres2; subst ipa2.
  rewrite Hint1 in Hint2. inversion Hint2; subst n2.
  pose proof (land_255_range n1) as Hip.
  assert (Hlt : clock E k1 < clock E k2) by (apply Hclock; lia).
  rewrite Hv1, Hv2, !candidate_arith. lia.
Qed.

Lemma later_call_greater_witness :
  4194843 < 8389147.
Proof.
  apply (later_call_greater 3 3
           {| gethostname := Ok "host";
              gethostbyname := fun _ => Ok "10.36.13.27";
              clock := fun k => 921700000001 + Z.of_nat k |}
           2 2 None (Some 4194843) world0
           {| ticks := 1; events := [] |} {| ticks := 2; events := [] |}).
  - intros j k Hjk. cbn. lia.
  - lia.
  - lia.
  - reflexivity.
  - reflexivity.
Defined.

(** X2: identifiers whose index, context and host fields are in range
    are equal only if they agree on the millisecond, the index, the
    context and the host component. *)
Theorem candidate_injective (dc dc' ip ip' now now' index index' : Z) :
  0 <= ip < 256 -> 0 <= ip' < 256 ->
  0 <= dc < 16 -> 0 <= dc' < 16 ->
  0 <= index < 1024 -> 0 <= index' < 1024 ->
  candidate dc ip now index = candidate dc' ip' now' index' ->
  now = now' /\ index = index' /\ dc = dc' /\ ip = ip'.
Proof.
  intros Hip Hip' Hdc Hdc' Hi Hi' Heq.
  rewrite !candidate_arith in Heq. lia.
Qed.

Lemma candidate_injective_witness :
  921700000001 = 921700000001 /\ 1 = 1 /\ 2 = 2 /\ 27 = 27.
Proof.
  apply (candidate_injective 2 2 27 27 921700000001 921700000001 1 1);
    solve [lia | reflexivity].
Defined.

(** X3: the deployment context is not masked: bits 8-11 of a returned
    identifier hold it modulo 16 (bits 0-7 still the host component), and
    16 more in the context gives the candidate of the next index. *)
Theorem context_overflows_into_index (fuel : nat) (E : env) (dc : Z)
    (last_uid : option Z) (w : world) (v : Z) (w' : world) :
  generate_jacs_uid fuel E dc last_uid w = Some (Ok (Some v), w') ->
  context_field v = dc mod 16
  /\ (exists ipa, resolve E = Ok ipa /\ ip_component ipa = Ok (host_field v))
  /\ forall ip now index,
       candidate (dc + 16) ip now index = candidate dc ip now (index + 1).
Proof.
  intros Hrun.
  destruct (returned_candidate _ _ _ _ _ _ _ Hrun)
    as (ipa & n & k & i & Hres & Hint & _ & Hi & Hv).
  pose proof (land_255_range n) as Hip.
  set (ip := Z.land n 255) in *.
  set (t := clock E k - 921700000000).
  assert (Hv' : v = t * 4194304 + i * 4096 + dc * 256 + ip)
    by (rewrite Hv; apply candidate_arith).
  split; [|split].
  - unfold context_field. change 15 with (Z.ones 4).
    rewrite Z.land_ones, Z.shiftr_div_pow2 by lia.
    change (2 ^ 8) with 256. change (2 ^ 4) with 16.
    assert (Hd : v / 256 = t * 16384 + i * 16 + dc).
    { symmetry. apply Z.div_unique with (r := ip); lia. }
    rewrite Hd.
    replace (t * 16384 + i * 16 + dc) with (dc + (t * 1024 + i) * 16) by lia.
    apply Z.mod_add. lia.
  - exists ipa. split; [exact Hres|].
    unfold ip_component. rewrite Hint. f_equal.
    unfold host_field. change 255 with (Z.ones 8) at 2.
    rewrite Z.land_ones by lia. change (2 ^ 8) with 256.
    apply Z.mod_unique with (q := t * 16384 + i * 16 + dc); lia.
  - intros ip0 now index. rewrite !candidate_arith. lia.
Qed.

Lemma context_overflows_into_index_witness :
  context_field 4198939 = 18 mod 16.
Proof.
  apply (context_overflows_into_index 3
           (fixed_env "10.36.13.27" 921700000001) 18 None world0 4198939
           {| ticks := 1; events := [] |}).
  reflexivity.
Defined.

(** X4: while the clock reads less than 2^41 ms past the epoch offset (and
    more than 0), an identifier returned for a 4-bit deployment context
    is positive and fits a signed 64-bit integer. *)
Theorem uid_fits_int64 (fuel : nat) (E : env) (dc : Z)
    (last_uid : option Z) (w : world) (v : Z) (w' : world) :
  (forall k, 921700000000 < clock E k < 921700000000 + 2 ^ 41) ->
  0 <= dc < 16 ->
  generate_jacs_uid fuel E dc last_uid w = Some (Ok (Some v), w') ->
  0 < v < 2 ^ 63.
Proof.
  intros Hclock Hdc Hrun.
  destruct (returned_candidate _ _ _ _ _ _ _ Hrun)
    as (ipa & n & k & i & _ & _ & _ & Hi & Hv).
  pose proof (land_255_range n) as Hip.
  specialize (Hclock k).
  change (2 ^ 41) with 2199023255552 in Hclock.
  change (2 ^ 63) with 9223372036854775808.
  rewrite Hv, candidate_arith. lia.
Qed.

Lemma uid_fits_int64_witness : 0 < 4198939 < 2 ^ 63.
Proof.
  apply (uid_fits_int64 3 (fixed_env "10.36.13.27" 921700000001) 2
           (Some 4194843) world0 4198939 {| ticks := 2; events := [] |}).
  - intros k. cbn. lia.
  - lia.
  - reflexivity.
Defined.

(** X5: a candidate that is 0 is taken for "no identifier yet": under a
    clock stuck at a reading whose index-0 candidate is 0, the call never
    returns, with or without [last_uid]. *)
Theorem zero_candidate_never_returns (E : env) (dc : Z) (ipa : string)
    (ip now : Z) :
  (forall k, clock E k = now) ->
  resolve E = Ok ipa -> ip_component ipa = Ok ip ->
  candidate dc ip now 0 = 0 ->
  forall fuel last_uid w, generate_jacs_uid fuel E dc last_uid w = None.
Proof.
  intros Hclock Hres Hip Hzero fuel last_uid w.
  assert (Hbody : forall s w0,
             current_index s = 0 ->
             loop_body E dc last_uid ip s w0
             = ({| current_index := 0; next_uid := Some 0 |}, tick w0)).
  { intros s w0 Hi. unfold loop_body, time_ms. cbv zeta.
    cbn [next_uid current_index]. rewrite Hclock, Hi, Hzero.
    assert (Hcol : truthy last_uid && eqb_obj last_uid (Some 0) = false).
    { destruct last_uid as [l|]; [|reflexivity].
      cbn [truthy eqb_obj]. now destruct (l =? 0). }
    rewrite Hcol. reflexivity. }
  assert (Hloop : forall f s w0,
             current_index s = 0 -> truthy (next_uid s) = false ->
             while_loop f E dc last_uid ip s w0 = None).
  { induction f as [|f IH]; intros s w0 Hi Ht.
    - cbn. unfold loop_guard. now rewrite Hi, Ht.
    - rewrite loop_step by (unfold loop_guard; now rewrite Hi, Ht).
      rewrite Hbody by exact Hi. now apply IH. }
  unfold generate_jacs_uid. rewrite Hres, Hip.
  now rewrite Hloop.
Qed.

Lemma zero_candidate_never_returns_witness :
  generate_jacs_uid 1000 (fixed_env "192.168.1.0" 921700000000) 0
    (Some 4194304) world0 = None.
Proof.
  apply (zero_candidate_never_returns
           (fixed_env "192.168.1.0" 921700000000) 0 "192.168.1.0" 0
           921700000000); reflexivity.
Defined.

(** X6: when the lookup of the host name and the lookup of [localhost]
    both raise, the call raises the exception of the second lookup; the
    clock is not read and nothing is printed. *)
Theorem both_lookups_fail (E : env) (e1 e2 : exn) :
  (gethostname E = Raise e1
   \/ exists hostname, gethostname E = Ok hostname
                       /\ gethostbyname E hostname = Raise e1) ->
  is_Exception e1 = true ->
  gethostbyname E "localhost" = Raise e2 ->
  forall fuel dc last_uid w,
    generate_jacs_uid fuel E dc last_uid w = Some (Raise e2, w).
Proof.
  intros Hfail Hexn Hlo fuel dc last_uid w.
  unfold generate_jacs_uid, resolve.
  destruct Hfail as [Hn|(h & Hn & Hl)]; rewrite Hn; [|rewrite Hl];
    now rewrite Hexn, Hlo.
Qed.

Lemma both_lookups_fail_witness :
  generate_jacs_uid 0
    {| gethostname := Ok "node7";
       gethostbyname := fun h =>
         if String.eqb h "localhost" then Raise (OSError "no loopback")
         else Raise (OSError "Name or service not known");
       clock := fun _ => 921700000001 |} 2 None world0
  = Some (Raise (OSError "no loopback"), world0).
Proof.
  apply (both_lookups_fail _ (OSError "Name or service not known")).
  - right. exists "node7". split; reflexivity.
  - reflexivity.
  - reflexivity.
Defined.

(** X7: the host component depends only on the text after the last dot
    of the address: it is that text read as an integer and masked to
    0..255, or [ValueError] when that text is not a number. *)
Theorem ip_component_last_field (p q : string) :
  Str.contains "." q = false ->
  ip_component (p ++ String "." q)%string = ip_component q
  /\ forall ip, ip_component q = Ok ip -> 0 <= ip < 256.
Proof.
  intros Hq. split.
  - unfold ip_component.
    rewrite split_app, !(split_no_sep _ _ Hq), last_item_app.
    reflexivity.
  - intros ip Hip. unfold ip_component in Hip.
    destruct (int_of_str _); [|discriminate].
    inversion Hip. apply land_255_range.
Qed.

Lemma ip_component_last_field_witness :
  ip_component "10.36.13.283" = ip_component "283"
  /\ forall ip, ip_component "283" = Ok ip -> 0 <= ip < 256.
Proof.
  apply (ip_component_last_field "10.36.13" "283"). reflexivity.
Defined.

End UidMore.

(** ** More about the paged listing *)

Module ListingMore.
Import Listing ListingScript ListingSpec.

Section Scripted.
Context {entry : Type}.
Variable base_kwargs : gmap string pyval.
Hypothesis base_free : base_kwargs !! "MaxKeys" = None.

Abbreviation snext := (next (@scripted_list_objects_v2 entry) base_kwargs).
Abbreviation spulls := (pulls (@scripted_list_objects_v2 entry) base_kwargs).

(** Pulls that begin with the request for a page. *)
Lemma pulls_fetching fuel n token s3c kwargs resp s3c' r :
  list_kwargs base_kwargs token = Ok kwargs ->
  scripted_list_objects_v2 s3c kwargs = (Ok resp, s3c') ->
  spulls fuel (S n) (Yielding (default [] (Contents resp)) resp) s3c'
  = Some r ->
  spulls (S fuel) (S n) (Fetching token) s3c = Some r.
Proof.
  intros Hk Hl H. cbn [pulls] in *.
  rewrite (next_fetching _ _ _ _ _ _ _ _ Hk Hl).
  destruct (snext fuel _ s3c') as [[[o g1] s3c1]|] eqn:Hn; [|discriminate].
  destruct (spulls fuel n g1 s3c1) as [[[os g2] s3c2]|] eqn:Hp;
    [|discriminate].
  apply (pulls_fuel_mono _ _ _ 1) in Hp.
  replace (fuel + 1)%nat with (S fuel) in Hp by lia.
  now rewrite Hp.
Qed.

(** Pulls that begin at the end of a truncated page. *)
Lemma pulls_cross fuel n cur s3c kwargs resp s3c' r :
  truthy_flag (IsTruncated cur) = true ->
  list_kwargs base_kwargs (NextContinuationToken cur) = Ok kwargs ->
  scripted_list_objects_v2 s3c kwargs = (Ok resp, s3c') ->
  spulls fuel (S n) (Yielding (default [] (Contents resp)) resp) s3c'
  = Some r ->
  spulls (S (S fuel)) (S n) (Yielding [] cur) s3c = Some r.
Proof.
  intros Ht Hk Hl H.
  pose proof (pulls_fetching _ _ _ _ _ _ _ _ Hk Hl H) as Hf.
  cbn [pulls] in Hf |- *.
  rewrite next_page_more by exact Ht.
  destruct (snext (S fuel) _ s3c) as [[[o g1] s3c1]|] eqn:Hn; [|discriminate].
  destruct (spulls (S fuel) n g1 s3c1) as [[[os g2] s3c2]|] eqn:Hp;
    [|discriminate].
  apply (pulls_fuel_mono _ _ _ 1) in Hp.
  replace (S fuel + 1)%nat with (S (S fuel)) in Hp by lia.
  now rewrite Hp.
Qed.

(** The last page: its entries, then the end. *)
Lemma pulls_final fuel k es final s3c :
  truthy_flag (IsTruncated final) = false ->
  spulls (S fuel) (length es + S k) (Yielding es final) s3c
  = Some (map Item es ++ StopIteration :: repeat StopIteration k,
          Finished, s3c).
Proof.
  intros Hlast.
  eapply pulls_app; [apply pulls_yielding|].
  eapply pulls_cons; [now apply next_page_last|apply pulls_finished].
Qed.

(** From inside a truncated page to the end of the listing. *)
Lemma pulls_pages (final : response entry)
    (rest : list (result (response entry))) (k : nat) :
  truthy_flag (IsTruncated final) = false ->
  forall (pages : list (list entry * string)) (es es0 : list entry)
         (token : string) (reqs : list (gmap string pyval)) (fuel : nat),
    Forall (fun p => snd p <> "") pages ->
    token <> "" ->
    (2 * length pages + 3 <= fuel)%nat ->
    spulls fuel (length es + (length (entries pages final) + S k))
      (Yielding es (truncated_page es0 token))
      {| pending := script pages final rest; requests := reqs |}
    = Some (map Item es
            ++ map Item (entries pages final)
            ++ StopIteration :: repeat StopIteration k,
            Finished,
            {| pending := rest;
               requests := reqs ++ map (token_request base_kwargs)
                                       (token :: map snd pages) |}).
Proof.
  intros Hfinal pages.
  induction pages as [|[es1 t1] pages IH];
    intros es es0 token reqs fuel Htokens Htoken Hfuel.
  - destruct fuel as [|[|[|fuel]]]; try (cbn in Hfuel; lia).
    eapply pulls_app; [apply pulls_yielding|].
    rewrite Nat.add_succ_r.
    eapply pulls_cross with (resp := final); [reflexivity| | |].
    + now apply list_kwargs_token.
    + reflexivity.
    + rewrite <- Nat.add_succ_r. unfold entries. cbn [map concat app].
      now apply pulls_final.
  - destruct fuel as [|[|fuel]]; try (cbn in Hfuel; lia).
    inversion Htokens as [|? ? Ht1 Hrest]; subst. cbn [snd] in Ht1.
    eapply pulls_app; [apply pulls_yielding|].
    rewrite Nat.add_succ_r.
    eapply pulls_cross with (resp := truncated_page es1 t1);
      [reflexivity| | |].
    + now apply list_kwargs_token.
    + reflexivity.
    + rewrite <- Nat.add_succ_r.
      assert (Hent : entries ((es1, t1) :: pages) final
                     = es1 ++ entries pages final).
      { unfold entries. cbn [map concat fst]. now rewrite app_assoc. }
      rewrite Hent, length_app, <- Nat.add_assoc.
      cbn [truncated_page Contents default].
      fold (truncated_page es1 t1).
      rewrite (IH es1 es1 t1 _ fuel Hrest Ht1) by (cbn in Hfuel; lia).
      rewrite map_app, <- !app_assoc. cbn [map snd app]. reflexivity.
Qed.

End Scripted.

(** X8: against a service that holds any number of truncated pages, each
    with a non-empty token, and then a page whose truncation flag is
    false or absent, the consumer gets the entries of all pages in
    order and then the end of the sequence.  One request per page is
    made: the initial one, then one carrying the token of each truncated
    page in turn; a token on the last page is ignored and nothing more is
    requested, however often the consumer pulls again. *)
Theorem all_pages {entry : Type} (pages : list (list entry * string))
    (final : response entry) (rest : list (result (response entry)))
    (base_kwargs : gmap string pyval) (fuel k : nat) :
  base_kwargs !! "MaxKeys" = None ->
  Forall (fun p => snd p <> "") pages ->
  truthy_flag (IsTruncated final) = false ->
  (2 * length pages + 3 <= fuel)%nat ->
  pulls scripted_list_objects_v2 base_kwargs fuel
    (length (entries pages final) + S k) get_all_s3_objects
    {| pending := script pages final rest; requests := [] |}
  = Some (map Item (entries pages final)
          ++ StopIteration :: repeat StopIteration k,
          Finished,
          {| pending := rest;
             requests := first_request base_kwargs
                         :: map (token_request base_kwargs)
                                (map snd pages) |}).
Proof.
  intros Hbase Htokens Hfinal Hfuel.
  destruct fuel as [|fuel]; [lia|].
  unfold get_all_s3_objects. rewrite Nat.add_succ_r.
  destruct pages as [|[es1 t1] pages].
  - eapply pulls_fetching with (resp := final);
      [now apply list_kwargs_first|reflexivity|].
    rewrite <- Nat.add_succ_r. unfold entries. cbn [map concat app].
    destruct fuel as [|fuel]; [cbn in Hfuel; lia|].
    now apply pulls_final.
  - inversion Htokens as [|? ? Ht1 Hrest]; subst. cbn [snd] in Ht1.
    eapply pulls_fetching with (resp := truncated_page es1 t1);
      [now apply list_kwargs_first|reflexivity|].
    rewrite <- Nat.add_succ_r.
    assert (Hent : entries ((es1, t1) :: pages) final
                   = es1 ++ entries pages final).
    { unfold entries. cbn [map concat fst]. now rewrite app_assoc. }
    rewrite Hent, length_app, <- Nat.add_assoc.
    cbn [truncated_page Contents default]. fold (truncated_page es1 t1).
    rewrite (pulls_pages base_kwargs Hbase final rest k Hfinal pages
               es1 es1 t1 _ fuel Hrest Ht1) by (cbn in Hfuel; lia).
    rewrite map_app, <- (app_assoc (map Item es1)). reflexivity.
Qed.

Lemma all_pages_witness :
  pulls scripted_list_objects_v2 {["Bucket" := PStr "janelia-flylight"]} 7
    5 get_all_s3_objects
    {| pending :=
         script [(["a"; "b"], "X"); ([], "Y")]
           {| Contents := Some ["c"]; IsTruncated := None;
              NextContinuationToken := Some "Z" |} [];
       requests := [] |}
  = Some ([Item "a"; Item "b"; Item "c"; StopIteration; StopIteration],
          Finished,
          {| pending := [];
             requests :=
               [first_request {["Bucket" := PStr "janelia-flylight"]};
                token_request {["Bucket" := PStr "janelia-flylight"]} "X";
                token_request {["Bucket" := PStr "janelia-flylight"]} "Y"]
          |}).
Proof.
  apply (all_pages [(["a"; "b"], "X"); ([], "Y")]
           {| Contents := Some ["c"]; IsTruncated := None;
              NextContinuationToken := Some "Z" |} []
           {["Bucket" := PStr "janelia-flylight"]} 7 1).
  - reflexivity.
  - repeat constructor; discriminate.
  - reflexivity.
  - cbn. lia.
Defined.

(** X9: [base_kwargs] that bring their own [MaxKeys] make the first pull
    raise [TypeError] before any request is made; the generator is
    finished after that. *)
Theorem duplicate_max_keys {entry client : Type}
    (list_objects_v2 :
       client -> gmap string pyval -> result (response entry) * client)
    (base_kwargs : gmap string pyval) (v : pyval) (fuel k : nat)
    (s3c : client) :
  base_kwargs !! "MaxKeys" = Some v ->
  pulls list_objects_v2 base_kwargs (S fuel) (S k) get_all_s3_objects s3c
  = Some (Raised (TypeError
                    "dict() got multiple values for keyword argument")
          :: repeat StopIteration k, Finished, s3c).
Proof.
  intros Hdup.
  eapply pulls_cons; [|apply pulls_finished].
  unfold get_all_s3_objects. cbn [next]. unfold list_kwargs.
  now rewrite Hdup.
Qed.

Lemma duplicate_max_keys_witness :
  pulls scripted_list_objects_v2
    {["Bucket" := PStr "janelia-flylight"; "MaxKeys" := PInt 10]} 1 2
    get_all_s3_objects
    {| pending := [Ok {| Contents := Some ["a"]; IsTruncated := None;
                         NextContinuationToken := None |}];
       requests := [] |}
  = Some ([Raised (TypeError
                     "dict() got multiple values for keyword argument");
           StopIteration], Finished,
          {| pending := [Ok {| Contents := Some ["a"]; IsTruncated := None;
                               NextContinuationToken := None |}];
             requests := [] |}).
Proof.
  apply (duplicate_max_keys scripted_list_objects_v2
           {["Bucket" := PStr "janelia-flylight"; "MaxKeys" := PInt 10]}
           (PInt 10) 0 1).
  reflexivity.
Defined.

(** Part of a page: the client is left alone. *)
Lemma pulls_take {entry client : Type}
    (list_objects_v2 :
       client -> gmap string pyval -> result (response entry) * client)
    (base_kwargs : gmap string pyval) (fuel : nat) (resp : response entry)
    (s3c : client) :
  forall (j : nat) (es : list entry),
    (j <= length es)%nat ->
    pulls list_objects_v2 base_kwargs (S fuel) j (Yielding es resp) s3c
    = Some (map Item (take j es), Yielding (drop j es) resp, s3c).
Proof.
  induction j as [|j IH]; intros es Hj; [reflexivity|].
  destruct es as [|x xs]; [cbn in Hj; lia|].
  change (take (S j) (x :: xs)) with (x :: take j xs).
  change (drop (S j) (x :: xs)) with (drop j xs).
  cbn [map].
  eapply pulls_cons; [apply next_item|].
  apply IH. cbn in Hj. lia.
Qed.

(** X10: a consumer that stops within the first page has caused one
    request only: after [j] pulls, with [j] between 1 and the number of
    entries of the first page, it holds the first [j] entries and the
    client is in the state the first request left it in. *)
Theorem first_page_is_lazy {entry client : Type}
    (list_objects_v2 :
       client -> gmap string pyval -> result (response entry) * client)
    (base_kwargs kwargs : gmap string pyval) (resp : response entry)
    (s3c s3c' : client) (fuel j : nat) :
  list_kwargs base_kwargs None = Ok kwargs ->
  list_objects_v2 s3c kwargs = (Ok resp, s3c') ->
  (1 <= j <= length (default [] (Contents resp)))%nat ->
  pulls list_objects_v2 base_kwargs (S (S fuel)) j get_all_s3_objects s3c
  = Some (map Item (take j (default [] (Contents resp))),
          Yielding (drop j (default [] (Contents resp))) resp, s3c').
Proof.
  intros Hk Hl Hj.
  destruct j as [|j]; [lia|].
  destruct (default [] (Contents resp)) as [|x xs] eqn:Hes;
    [cbn in Hj; lia|].
  change (take (S j) (x :: xs)) with (x :: take j xs).
  change (drop (S j) (x :: xs)) with (drop j xs).
  cbn [map].
  eapply pulls_cons.
  - unfold get_all_s3_objects.
    rewrite (next_fetching _ _ _ _ _ _ _ _ Hk Hl), Hes. apply next_item.
  - apply pulls_take. cbn in Hj. lia.
Qed.

Lemma first_page_is_lazy_witness :
  pulls scripted_list_objects_v2 {["Bucket" := PStr "janelia-flylight"]} 2 2
    get_all_s3_objects
    {| pending := [Ok (truncated_page ["a"; "b"; "c"] "X");
                   Raise (OSError "connection reset")];
       requests := [] |}
  = Some ([Item "a"; Item "b"],
          Yielding ["c"] (truncated_page ["a"; "b"; "c"] "X"),
          {| pending := [Raise (OSError "connection reset")];
             requests :=
               [first_request {["Bucket" := PStr "janelia-flylight"]}] |}).
Proof.
  apply (first_page_is_lazy scripted_list_objects_v2
           {["Bucket" := PStr "janelia-flylight"]}
           (first_request {["Bucket" := PStr "janelia-flylight"]})
           (truncated_page ["a"; "b"; "c"] "X")
           {| pending := [Ok (truncated_page ["a"; "b"; "c"] "X");
                          Raise (OSError "connection reset")];
              requests := [] |}
           {| pending := [Raise (OSError "connection reset")];
              requests :=
                [first_request {["Bucket" := PStr "janelia-flylight"]}] |}
           0 2).
  - reflexivity.
  - reflexivity.
  - cbn. lia.
Defined.

End ListingMore.

(** ** Renaming and copying the PPP images: what a run guarantees *)

Module PppSpec.
Import Ppp StrFacts.

Lemma copies_app (tr : list event) (ev : event) :
  copies (tr ++ [ev])
  = copies tr ++ match ev with Copied src dst => [(src, dst)] | _ => [] end.
Proof.
  induction tr as [|a tr IH]; [now destruct ev|].
  destruct a; cbn [app copies]; rewrite IH; reflexivity.
Qed.

(** Looking keys up neither reads nor changes the state. *)
Lemma item_pure (d : gmap string string) (key : string) :
  exists r, forall st, item d key st = (r, st).
Proof. unfold item. destruct (d !! key); eexists; intros st; reflexivity. Qed.

Lemma items_pure (d : gmap string string) (keys : list string) :
  exists r, forall st, items d keys st = (r, st).
Proof.
  induction keys as [|key keys [rs IH]]; [eexists; intros; reflexivity|].
  destruct (item_pure d key) as [r Hr]. cbn [items]. unfold bind.
  destruct r as [e|v].
  - exists (inl e). intros st. now rewrite Hr.
  - destruct rs as [e|vs].
    + exists (inl e). intros st. now rewrite Hr, IH.
    + exists (inr (v :: vs)). intros st. now rewrite Hr, IH.
Qed.

Lemma newname_of_pure (E : env) (m : pmatch) (img : gmap string string) :
  exists r, forall st, newname_of E m img st = (r, st).
Proof.
  unfold newname_of, bind.
  destruct (items_pure (fields m) RENAME_COMPONENTS) as [[e|comps] Hc].
  - exists (inl e). intros st. now rewrite Hc.
  - destruct (item_pure img "variantType") as [[e|v] Hv].
    + exists (inl e). intros st. now rewrite Hc, Hv.
    + eexists. intros st. rewrite Hc, Hv. reflexivity.
Qed.

Lemma planned_name_of (E : env) (m : pmatch) (img : gmap string string) r :
  (forall st, newname_of E m img st = (r, st)) ->
  planned_name E m img = match r with inr n => Some n | inl _ => None end.
Proof. intros H. unfold planned_name. now rewrite H. Qed.

Ltac run_m :=
  unfold log, raise, ret, bind, get, remember; cbn [fst snd filedict trace].

Lemma handle_image_step E newdir path m img st :
  image_step E newdir path m img st (handle_image E newdir path m img st).
Proof.
  destruct (newname_of_pure E m img) as [r Hr].
  pose proof (planned_name_of E m img r Hr) as Hp.
  unfold handle_image. unfold bind at 1. rewrite Hr.
  destruct r as [e|n]; [now apply step_no_name|].
  unfold bind at 1. cbn [get]. destruct (filedict st !! n) as [z|] eqn:Hd.
  - unfold item. destruct (fields m !! "fullEmName") as [name|] eqn:Hf.
    + run_m. eapply step_duplicate; eauto.
    + run_m. eapply step_duplicate_unnamed; eauto.
  - destruct (img !! "imagePath") as [src|] eqn:Hi.
    + run_m.
      destruct (shutil_copy E (trace st) src (join "/" [newdir; n]))
        as [e|] eqn:Hc.
      * destruct (is_Exception e) eqn:He.
        -- run_m. eapply step_copy_failed; eauto.
        -- run_m. eapply step_copy_uncaught; eauto.
      * run_m. eapply step_copied; eauto.
    + run_m. eapply step_no_path; eauto.
Qed.

Lemma append_inj (a x y : string) : a +:+ x = a +:+ y -> x = y.
Proof.
  induction a as [|c a IH]; cbn; [tauto|].
  intros H. inversion H. auto.
Qed.

Lemma for_each_invariant {X : Type} (I : state -> Prop) (f : X -> M unit)
    (l : list X) :
  (forall x, In x l -> forall st, I st -> I (snd (f x st))) ->
  forall st, I st -> I (snd (for_each f l st)).
Proof.
  induction l as [|x l IH]; intros Hf st HI; [exact HI|].
  cbn [for_each]. unfold bind.
  pose proof (Hf x (or_introl eq_refl) st HI) as Hx.
  destruct (f x st) as [[e|[]] st']; cbn [snd] in *; auto.
  apply IH; [|exact Hx]. intros y Hy. apply Hf. now right.
Qed.

Lemma tidy_log (ok : string -> Prop) (newdir : string)
    (fd : gmap string Z) (tr : list event) (ev : event) :
  (forall src dst, ev <> Copied src dst) ->
  tidy ok newdir {| filedict := fd; trace := tr |} ->
  tidy ok newdir {| filedict := fd; trace := tr ++ [ev] |}.
Proof.
  intros Hev Ht. unfold tidy in *. cbn [trace filedict] in *.
  rewrite copies_app. destruct ev; try (now rewrite app_nil_r).
  exfalso. now apply (Hev src dst).
Qed.

Lemma tidy_remember (ok : string -> Prop) (newdir n : string)
    (fd : gmap string Z) (tr : list event) :
  tidy ok newdir {| filedict := fd; trace := tr |} ->
  tidy ok newdir {| filedict := <[n := 1]> fd; trace := tr |}.
Proof.
  intros [Hnd Hin]. split; [exact Hnd|]. cbn [trace filedict] in *.
  intros d Hd. destruct (Hin d Hd) as (n' & Hn' & Hs & Hok).
  exists n'. split; [exact Hn'|]. split; [|exact Hok].
  rewrite lookup_insert_is_Some. destruct (decide (n = n')); auto.
Qed.

Lemma tidy_image (ok : string -> Prop) E newdir path m img st :
  (forall n, planned_name E m img = Some n -> ok n) ->
  tidy ok newdir st ->
  tidy ok newdir (snd (handle_image E newdir path m img st)).
Proof.
  intros Hok Ht.
  destruct (handle_image_step E newdir path m img st)
    as [e Hp|n Hp Hs Hf|n name Hp Hs Hf|n Hp Hfree Hi|n src Hp Hfree Hi Hc
       |n src e Hp Hfree Hi Hc He|n src e Hp Hfree Hi Hc He]; cbn [snd];
    try exact Ht; destruct st as [fd tr]; cbn [filedict trace] in *;
    try (now apply tidy_remember).
  - now apply tidy_log.
  - (* the copy: the name was not in [filedict] before *)
    destruct Ht as [Hnd Hin]. unfold tidy. cbn [trace filedict].
    rewrite copies_app, map_app. cbn [map snd]. split.
    + apply NoDup_app. split; [exact Hnd|]. split; [|apply NoDup_singleton].
      intros d Hd Hd'. apply list_elem_of_In in Hd.
      apply list_elem_of_singleton in Hd'. subst d.
      destruct (Hin _ Hd) as (n' & Heq & Hs & _).
      cbn [join] in Heq. apply append_inj, append_inj in Heq. subst n'.
      cbn [filedict] in Hs. rewrite Hfree in Hs. now destruct Hs.
    + intros d Hd. apply in_app_or in Hd as [Hd|[Hd|[]]].
      * destruct (Hin d Hd) as (n' & Hn' & Hs & Hok').
        exists n'. split; [exact Hn'|]. split; [|exact Hok'].
        rewrite lookup_insert_is_Some.
        destruct (decide (n = n')); auto.
      * exists n. split; [now symmetry|]. split; [|now apply Hok].
        rewrite lookup_insert_is_Some. auto.
  - apply tidy_log; [discriminate|]. apply tidy_log; [discriminate|].
    now apply tidy_remember.
Qed.

Lemma tidy_match (ok : string -> Prop) E newdir path m st :
  (forall variants img n,
      imageVariants m = Some variants -> In img variants ->
      planned_name E m img = Some n -> ok n) ->
  tidy ok newdir st ->
  tidy ok newdir (snd (handle_match E newdir path m st)).
Proof.
  intros Hok Ht. unfold handle_match.
  destruct (imageVariants m) as [variants|]; [|exact Ht].
  destruct (fields m !! "lineName").
  - apply for_each_invariant; [|exact Ht].
    intros img Himg st' Ht'. apply tidy_image; [|exact Ht'].
    intros n Hn. now apply (Hok variants img n).
  - unfold item. destruct (fields m !! "fullLmName"); run_m; [|exact Ht].
    destruct st as [fd tr]. now apply tidy_log.
Qed.

(** X11: in one run, however it ends, no destination is copied to
    twice, and every destination is the path of the directory made for
    the JSON file, a slash, and the new name of an image variant of a
    match of that file.  (The name is built from values of the file as
    they are; a slash in one of them is kept.) *)
Theorem copies_never_overwrite (E : env) (neuronbridge library path : string) :
  let st := snd (handle_single_json_file E neuronbridge library path) in
  NoDup (map snd (copies (trace st)))
  /\ forall d, In d (map snd (copies (trace st))) ->
               exists matches m variants img newname,
                 json_load E path = Ok (Some matches)
                 /\ In m matches
                 /\ imageVariants m = Some variants
                 /\ In img variants
                 /\ planned_name E m img = Some newname
                 /\ d = newdir_of neuronbridge library path
                        +:+ "/" +:+ newname.
Proof.
  cbv zeta.
  set (ok := fun n => exists matches,
                 json_load E path = Ok (Some matches)
                 /\ named E matches n).
  assert (Ht : tidy ok (newdir_of neuronbridge library path)
                 (snd (handle_single_json_file E neuronbridge library path))).
  { unfold handle_single_json_file.
    assert (H0 : tidy ok (newdir_of neuronbridge library path)
                   {| filedict := ∅; trace := [] |}).
    { split; [constructor|]. intros d []. }
    destruct (json_load E path) as [results|e] eqn:Hload.
    - unfold bind at 1. cbn [get fst snd trace].
      set (newdir := newdir_of neuronbridge library path) in *.
      assert (Hmk : tidy ok newdir
                 (snd ((match mkdir E [] newdir with
                        | None => log (MadeDir newdir)
                        | Some e =>
                            if is_Exception e then
                              log (LogError "Could not create %s" [newdir]) ;;
                              log (LogException e)
                            else raise (Uncaught e)
                        end) {| filedict := ∅; trace := [] |}))).
      { destruct (mkdir E [] newdir) as [e|].
        - destruct (is_Exception e); run_m; [|exact H0].
          apply tidy_log; [discriminate|]. now apply tidy_log.
        - run_m. now apply tidy_log. }
      unfold bind at 1.
      destruct ((match mkdir E [] newdir with
                 | None => log (MadeDir newdir)
                 | Some e =>
                     if is_Exception e then
                       log (LogError "Could not create %s" [newdir]) ;;
                       log (LogException e)
                     else raise (Uncaught e)
                 end) {| filedict := ∅; trace := [] |}) as [[e|[]] st1];
        cbn [snd] in *; [exact Hmk|].
      destruct results as [matches|]; [|exact Hmk].
      apply for_each_invariant; [|exact Hmk].
      intros m Hm st' Ht'. apply tidy_match; [|exact Ht'].
      intros variants img n Hv Himg Hn.
      exists matches. split; [reflexivity|]. exists m, variants, img. auto.
    - destruct (is_Exception e); run_m; [|exact H0].
      apply tidy_log; [discriminate|]. now apply tidy_log. }
  destruct Ht as [Hnd Hin]. split; [exact Hnd|].
  intros d Hd.
  destruct (Hin d Hd)
    as (n & Hn & _ & matches & Hload & m & variants & img & Hm & Hv & Himg
        & Hp).
  exists matches, m, variants, img, n. auto 10.
Qed.

(** The sample file: the destination of the second copy is the new name
    of an image variant of one of its matches. *)
Lemma copies_never_overwrite_witness :
  exists matches m variants img newname,
    json_load (sample_env [sample_match; sample_unnamed])
      "/Volumes/nb/1537331894.json" = Ok (Some matches)
    /\ In m matches
    /\ imageVariants m = Some variants
    /\ In img variants
    /\ planned_name (sample_env [sample_match; sample_unnamed]) m img
       = Some newname
    /\ "/Volumes/neuronbridge/ppp_imagery/v2.2.0/FlyLight_Split-GAL4_Drivers/1537331894/1537331894-R10A11-20200124_61_A1-40x-JRC2018_Unisex_20x_HR-masked_raw.png"
       = newdir_of "v2.2.0" "FlyLight_Split-GAL4_Drivers"
           "/Volumes/nb/1537331894.json" +:+ "/" +:+ newname.
Proof.
  apply (proj2 (copies_never_overwrite
                  (sample_env [sample_match; sample_unnamed])
                  "v2.2.0" "FlyLight_Split-GAL4_Drivers"
                  "/Volumes/nb/1537331894.json")).
  vm_compute. auto.
Defined.

(** A loop that runs to its end adds what each pass adds. *)
Lemma for_each_completed {X : Type} (f : X -> M unit)
    (g : X -> list (option (string * string))) (l : list X) :
  (forall x st st',
      f x st = (inr tt, st') ->
      map Some (copies (trace st')) = map Some (copies (trace st)) ++ g x) ->
  forall st st',
    for_each f l st = (inr tt, st') ->
    map Some (copies (trace st'))
    = map Some (copies (trace st)) ++ concat (map g l).
Proof.
  intros Hf. induction l as [|x l IH]; intros st st' Hrun.
  - inversion Hrun; subst. cbn. now rewrite app_nil_r.
  - cbn [for_each] in Hrun. unfold bind in Hrun.
    destruct (f x st) as [[e|[]] st1] eqn:Hx; [discriminate|].
    rewrite (IH _ _ Hrun), (Hf _ _ _ Hx). cbn [map concat].
    now rewrite app_assoc.
Qed.

Lemma image_completed E newdir path m img st st' :
  handle_image E newdir path m img st = (inr tt, st') ->
  map Some (copies (trace st'))
  = map Some (copies (trace st)) ++ [planned_image E newdir m img].
Proof.
  intros Hrun.
  destruct (handle_image_step E newdir path m img st)
    as [e Hp|n Hp Hs Hf|n name Hp Hs Hf|n Hp Hfree Hi|n src Hp Hfree Hi Hc
       |n src e Hp Hfree Hi Hc He|n src e Hp Hfree Hi Hc He];
    try discriminate.
  inversion Hrun; subst st'. cbn [trace].
  rewrite copies_app, map_app. unfold planned_image. now rewrite Hi, Hp.
Qed.

Lemma match_completed E newdir path m st st' :
  handle_match E newdir path m st = (inr tt, st') ->
  map Some (copies (trace st'))
  = map Some (copies (trace st)) ++ planned E newdir m.
Proof.
  unfold handle_match, planned.
  destruct (imageVariants m) as [variants|].
  - destruct (fields m !! "lineName").
    + intros Hrun.
      rewrite (for_each_completed _ (fun img => [planned_image E newdir m img])
                 variants (image_completed E newdir path m) _ _ Hrun).
      f_equal. clear Hrun. induction variants as [|v vs IH]; [reflexivity|].
      cbn [map concat app]. now rewrite IH.
    + unfold item. destruct (fields m !! "fullLmName"); run_m;
        intros Hrun; [|discriminate].
      inversion Hrun; subst st'. cbn [trace].
      now rewrite copies_app, !app_nil_r.
  - intros Hrun. inversion Hrun; subst. now rewrite app_nil_r.
Qed.

(** Once the file is loaded and has [results], the run is the loop over
    the results, started with an empty [filedict] and no copy made. *)
Lemma run_from_results E neuronbridge library path matches :
  json_load E path = Ok (Some matches) ->
  (forall e, mkdir E [] (newdir_of neuronbridge library path) = Some e ->
             is_Exception e = true) ->
  exists tr0,
    copies tr0 = []
    /\ handle_single_json_file E neuronbridge library path
       = for_each (handle_match E (newdir_of neuronbridge library path) path)
           matches {| filedict := ∅; trace := tr0 |}.
Proof.
  intros Hload Hmk. unfold handle_single_json_file. rewrite Hload.
  unfold bind at 1. cbn [get trace].
  destruct (mkdir E [] (newdir_of neuronbridge library path)) as [e|] eqn:He.
  - rewrite (Hmk e eq_refl). eexists. split; [|run_m; reflexivity].
    reflexivity.
  - eexists. split; [|run_m; reflexivity]. reflexivity.
Qed.

(** X12: a run that comes back normally has copied, in the order of the
    file, exactly one image per image variant of every match that has
    both [imageVariants] and [lineName]: from its [imagePath] to its new
    name in the directory of the JSON file.  Matches without one of the
    two keys are passed over. *)
Theorem completed_run_copies (E : env) (neuronbridge library path : string)
    (matches : list pmatch) :
  json_load E path = Ok (Some matches) ->
  fst (handle_single_json_file E neuronbridge library path) = inr tt ->
  map Some (copies (trace (snd (handle_single_json_file E neuronbridge
                                  library path))))
  = concat (map (planned E (newdir_of neuronbridge library path)) matches).
Proof.
  intros Hload Hok.
  assert (Hmk : forall e,
             mkdir E [] (newdir_of neuronbridge library path) = Some e ->
             is_Exception e = true).
  { intros e He. destruct (is_Exception e) eqn:Hx; [reflexivity|].
    unfold handle_single_json_file in Hok. rewrite Hload in Hok.
    unfold bind at 1 in Hok. cbn [get trace] in Hok.
    rewrite He, Hx in Hok. discriminate. }
  destruct (run_from_results E neuronbridge library path matches Hload Hmk)
    as (tr0 & Hc0 & Hrun).
  rewrite Hrun in *.
  destruct (for_each _ matches _) as [[e|[]] st'] eqn:Hloop; [discriminate|].
  cbn [snd].
  rewrite (for_each_completed _ _ matches
             (match_completed E (newdir_of neuronbridge library path) path)
             _ _ Hloop).
  cbn [trace]. now rewrite Hc0.
Qed.

Lemma completed_run_copies_witness :
  map Some (copies (trace (snd (handle_single_json_file
                                  (sample_env [sample_match; sample_unnamed])
                                  "v2.2.0" "FlyLight_Split-GAL4_Drivers"
                                  "/Volumes/nb/1537331894.json"))))
  = [Some ("/nrs/ppp/1537331894/raw.png",
           "/Volumes/neuronbridge/ppp_imagery/v2.2.0/FlyLight_Split-GAL4_Drivers/1537331894/1537331894-R10A11-20200124_61_A1-40x-JRC2018_Unisex_20x_HR-raw.png");
     Some ("/nrs/ppp/1537331894/masked.png",
           "/Volumes/neuronbridge/ppp_imagery/v2.2.0/FlyLight_Split-GAL4_Drivers/1537331894/1537331894-R10A11-20200124_61_A1-40x-JRC2018_Unisex_20x_HR-masked_raw.png")].
Proof.
  rewrite (completed_run_copies (sample_env [sample_match; sample_unnamed])
             "v2.2.0" "FlyLight_Split-GAL4_Drivers"
             "/Volumes/nb/1537331894.json" [sample_match; sample_unnamed]).
  - vm_compute. reflexivity.
  - reflexivity.
  - vm_compute. reflexivity.
Defined.

(** The first image variants of the first match decide how a run ends
    when they stop it. *)
Lemma first_image_stops E newdir path m rest img imgs l st e st1 :
  imageVariants m = Some (img :: imgs) ->
  fields m !! "lineName" = Some l ->
  handle_image E newdir path m img st = (inl e, st1) ->
  for_each (handle_match E newdir path) (m :: rest) st = (inl e, st1).
Proof.
  intros Hv Hl Hrun. cbn [for_each]. unfold bind at 1.
  unfold handle_match. rewrite Hv, Hl. cbn [for_each]. unfold bind at 1.
  now rewrite Hrun.
Qed.

Lemma second_image_stops E newdir path m rest img1 img2 imgs l st st1 e st2 :
  imageVariants m = Some (img1 :: img2 :: imgs) ->
  fields m !! "lineName" = Some l ->
  handle_image E newdir path m img1 st = (inr tt, st1) ->
  handle_image E newdir path m img2 st1 = (inl e, st2) ->
  for_each (handle_match E newdir path) (m :: rest) st = (inl e, st2).
Proof.
  intros Hv Hl Hrun1 Hrun2. cbn [for_each]. unfold bind at 1.
  unfold handle_match. rewrite Hv, Hl. cbn [for_each]. unfold bind at 1.
  rewrite Hrun1. unfold bind at 1. now rewrite Hrun2.
Qed.

Lemma items_present (d : gmap string string) (keys : list string) :
  (forall key, In key keys -> is_Some (d !! key)) ->
  exists vs, forall st, items d keys st = (inr vs, st).
Proof.
  induction keys as [|key keys IH]; intros Hall.
  - exists []. reflexivity.
  - destruct (Hall key (or_introl eq_refl)) as [v Hv].
    destruct IH as [vs Hvs]; [intros k Hk; apply Hall; now right|].
    exists (v :: vs). intros st. cbn [items]. unfold bind, item.
    rewrite Hv. run_m. now rewrite Hvs.
Qed.

Lemma items_first_missing (d : gmap string string) (keys : list string)
    (key : string) :
  find (fun k => bool_decide (d !! k = None)) keys = Some key ->
  forall st, items d keys st = (inl (KeyError key), st).
Proof.
  induction keys as [|k keys IH]; [discriminate|].
  cbn [find]. intros Hfind st. cbn [items]. unfold bind, item.
  destruct (d !! k) as [v|] eqn:Hk.
  - rewrite bool_decide_eq_false_2 in Hfind by discriminate.
    run_m. now rewrite (IH Hfind).
  - rewrite bool_decide_eq_true_2 in Hfind by reflexivity.
    inversion Hfind; subst. reflexivity.
Qed.

(** The new name of an image variant of a match that has the four
    components: it differs between variants only in the variant type. *)
Lemma planned_name_present (E : env) (m : pmatch) :
  (forall key, In key RENAME_COMPONENTS -> is_Some (fields m !! key)) ->
  exists base, forall img v,
    img !! "variantType" = Some v ->
    planned_name E m img
    = Some (base +:+ "-" +:+ CDM_ALIGNMENT_SPACE +:+ "-" +:+ str_lower E v
            +:+ ".png").
Proof.
  intros Hall.
  destruct (items_present (fields m) RENAME_COMPONENTS Hall) as [vs Hvs].
  exists (join "-" vs). intros img v Hv.
  unfold planned_name, newname_of, bind, item. rewrite Hvs, Hv. reflexivity.
Qed.

(** X13: an image variant without [imagePath] ends the run with
    [KeyError], not with the logged exit of a failed copy: the handler
    of the copy looks the key up again.  Shown for the first image
    variant of the first match; nothing has been copied then. *)
Theorem missing_image_path (E : env) (neuronbridge library path : string)
    (m : pmatch) (rest : list pmatch) (img : gmap string string)
    (imgs : list (gmap string string)) :
  json_load E path = Ok (Some (m :: rest)) ->
  (forall e, mkdir E [] (newdir_of neuronbridge library path) = Some e ->
             is_Exception e = true) ->
  imageVariants m = Some (img :: imgs) ->
  (forall key, In key RENAME_COMPONENTS -> is_Some (fields m !! key)) ->
  is_Some (img !! "variantType") ->
  img !! "imagePath" = None ->
  fst (handle_single_json_file E neuronbridge library path)
  = inl (KeyError "imagePath")
  /\ copies (trace (snd (handle_single_json_file E neuronbridge library
                           path))) = [].
Proof.
  intros Hload Hmk Hv Hall [v Hvt] Hpath.
  destruct (run_from_results E neuronbridge library path _ Hload Hmk)
    as (tr0 & Hc0 & Hrun).
  destruct (planned_name_present E m Hall) as [base Hname].
  specialize (Hname img v Hvt).
  destruct (Hall "lineName") as [l Hl]; [cbn; auto|].
  set (newdir := newdir_of neuronbridge library path) in *.
  set (st0 := {| filedict := ∅; trace := tr0 |}) in *.
  assert (Hstep : exists fd,
             handle_image E newdir path m img st0
             = (inl (KeyError "imagePath"),
                {| filedict := fd; trace := tr0 |})).
  { destruct (handle_image_step E newdir path m img st0)
      as [e Hp|n Hp Hs Hf|n name Hp Hs Hf|n Hp Hfree Hi|n src Hp Hfree Hi Hc
         |n src e Hp Hfree Hi Hc He|n src e Hp Hfree Hi Hc He];
      try congruence;
      try (cbn [filedict st0] in Hs; rewrite lookup_empty in Hs;
           now destruct Hs).
    eexists. reflexivity. }
  destruct Hstep as [fd Hstep].
  rewrite Hrun, (first_image_stops _ _ _ _ _ _ _ _ _ _ _ Hv Hl Hstep).
  split; [reflexivity|exact Hc0].
Qed.

Lemma missing_image_path_witness :
  fst (handle_single_json_file
         (sample_env
            [{| fields := fields sample_match;
                imageVariants := Some [ {[ "variantType" := "RAW" ]} ] |}])
         "v2.2.0" "FlyLight_Split-GAL4_Drivers" "/Volumes/nb/1537331894.json")
  = inl (KeyError "imagePath").
Proof.
  apply (missing_image_path
           (sample_env
              [{| fields := fields sample_match;
                  imageVariants := Some [ {[ "variantType" := "RAW" ]} ] |}])
           "v2.2.0" "FlyLight_Split-GAL4_Drivers"
           "/Volumes/nb/1537331894.json"
           {| fields := fields sample_match;
              imageVariants := Some [ {[ "variantType" := "RAW" ]} ] |}
           [] {[ "variantType" := "RAW" ]} []).
  - reflexivity.
  - intros e He. discriminate.
  - reflexivity.
  - intros key Hkey. cbn in Hkey.
    destruct Hkey as [<-|[<-|[<-|[<-|[]]]]]; vm_compute; eauto.
  - vm_compute. eauto.
  - vm_compute. reflexivity.
Defined.

(** X14: only [lineName] is looked for before a match is used.  A match
    that has [lineName] and at least one image variant but lacks another
    of the four name components ends the run with [KeyError] for the
    first component that is missing, before anything is copied. *)
Theorem missing_component (E : env) (neuronbridge library path : string)
    (m : pmatch) (rest : list pmatch) (img : gmap string string)
    (imgs : list (gmap string string)) (key : string) :
  json_load E path = Ok (Some (m :: rest)) ->
  (forall e, mkdir E [] (newdir_of neuronbridge library path) = Some e ->
             is_Exception e = true) ->
  imageVariants m = Some (img :: imgs) ->
  is_Some (fields m !! "lineName") ->
  find (fun k => bool_decide (fields m !! k = None)) RENAME_COMPONENTS
  = Some key ->
  fst (handle_single_json_file E neuronbridge library path)
  = inl (KeyError key)
  /\ copies (trace (snd (handle_single_json_file E neuronbridge library
                           path))) = [].
Proof.
  intros Hload Hmk Hv [l Hl] Hfind.
  destruct (run_from_results E neuronbridge library path _ Hload Hmk)
    as (tr0 & Hc0 & Hrun).
  set (newdir := newdir_of neuronbridge library path) in *.
  set (st0 := {| filedict := ∅; trace := tr0 |}) in *.
  assert (Hstep : handle_image E newdir path m img st0
                  = (inl (KeyError key), st0)).
  { unfold handle_image, newname_of. unfold bind at 1. unfold bind at 1.
    now rewrite (items_first_missing _ _ _ Hfind). }
  rewrite Hrun, (first_image_stops _ _ _ _ _ _ _ _ _ _ _ Hv Hl Hstep).
  split; [reflexivity|exact Hc0].
Qed.

Lemma missing_component_witness :
  fst (handle_single_json_file
         (sample_env
            [{| fields := delete "slideCode" (fields sample_match);
                imageVariants := imageVariants sample_match |}])
         "v2.2.0" "FlyLight_Split-GAL4_Drivers" "/Volumes/nb/1537331894.json")
  = inl (KeyError "slideCode").
Proof.
  apply (missing_component
           (sample_env
              [{| fields := delete "slideCode" (fields sample_match);
                  imageVariants := imageVariants sample_match |}])
           "v2.2.0" "FlyLight_Split-GAL4_Drivers"
           "/Volumes/nb/1537331894.json"
           {| fields := delete "slideCode" (fields sample_match);
              imageVariants := imageVariants sample_match |}
           [] {[ "variantType" := "RAW";
                 "imagePath" := "/nrs/ppp/1537331894/raw.png" ]}
           [ {[ "variantType" := "MASKED_RAW";
                "imagePath" := "/nrs/ppp/1537331894/masked.png" ]} ]).
  - reflexivity.
  - intros e He. discriminate.
  - reflexivity.
  - vm_compute. eauto.
  - vm_compute. reflexivity.
Defined.

(** X15: two image variants of a match whose variant types agree up to
    letter case (they are equal after [str.lower]) get the same new
    name; the run copies the first, logs the duplicate with the match's
    [fullEmName] and exits with status -1, leaving the second and
    everything after it uncopied. *)
Theorem duplicate_name_exits (E : env) (neuronbridge library path : string)
    (m : pmatch) (rest : list pmatch) (img1 img2 : gmap string string)
    (imgs : list (gmap string string)) (v1 v2 src name : string) :
  json_load E path = Ok (Some (m :: rest)) ->
  (forall e, mkdir E [] (newdir_of neuronbridge library path) = Some e ->
             is_Exception e = true) ->
  imageVariants m = Some (img1 :: img2 :: imgs) ->
  (forall key, In key RENAME_COMPONENTS -> is_Some (fields m !! key)) ->
  img1 !! "variantType" = Some v1 ->
  img2 !! "variantType" = Some v2 ->
  str_lower E v1 = str_lower E v2 ->
  img1 !! "imagePath" = Some src ->
  (forall tr dst, shutil_copy E tr src dst = None) ->
  fields m !! "fullEmName" = Some name ->
  let run := handle_single_json_file E neuronbridge library path in
  fst run = inl (SysExit (-1))
  /\ (exists newname,
        copies (trace (snd run))
        = [(src, newdir_of neuronbridge library path +:+ "/" +:+ newname)])
  /\ last (trace (snd run))
     = Some (LogError "Duplicate file name found for %s in %s" [name; path]).
Proof.
  intros Hload Hmk Hv Hall Hv1 Hv2 Hlow Hsrc Hcopy Hname run. subst run.
  destruct (run_from_results E neuronbridge library path _ Hload Hmk)
    as (tr0 & Hc0 & Hrun).
  destruct (planned_name_present E m Hall) as [base Hnew].
  pose proof (Hnew img1 v1 Hv1) as Hn1.
  pose proof (Hnew img2 v2 Hv2) as Hn2. rewrite <- Hlow in Hn2.
  destruct (Hall "lineName") as [l Hl]; [cbn; auto|].
  set (newdir := newdir_of neuronbridge library path) in *.
  set (n := base +:+ "-" +:+ CDM_ALIGNMENT_SPACE +:+ "-" +:+ str_lower E v1
            +:+ ".png") in *.
  set (st0 := {| filedict := ∅; trace := tr0 |}) in *.
  set (st1 := {| filedict := <[n := 1]> ∅;
                 trace := tr0 ++ [Copied src (join "/" [newdir; n])] |}).
  assert (Hstep1 : handle_image E newdir path m img1 st0 = (inr tt, st1)).
  { destruct (handle_image_step E newdir path m img1 st0)
      as [e Hp|n' Hp Hs Hf|n' name' Hp Hs Hf|n' Hp Hfree Hi
         |n' src' Hp Hfree Hi Hc|n' src' e Hp Hfree Hi Hc He
         |n' src' e Hp Hfree Hi Hc He];
      try congruence;
      try (cbn [filedict st0] in Hs; rewrite lookup_empty in Hs;
           now destruct Hs);
      try (rewrite Hsrc in Hi; inversion Hi; subst src';
           rewrite Hcopy in Hc; discriminate).
    rewrite Hn1 in Hp. inversion Hp; subst n'.
    rewrite Hsrc in Hi. inversion Hi; subst src'. reflexivity. }
  assert (Hstep2 : handle_image E newdir path m img2 st1
                   = (inl (SysExit (-1)),
                      {| filedict := filedict st1;
                         trace := trace st1
                           ++ [LogError
                                 "Duplicate file name found for %s in %s"
                                 [name; path]] |})).
  { destruct (handle_image_step E newdir path m img2 st1)
      as [e Hp|n' Hp Hs Hf|n' name' Hp Hs Hf|n' Hp Hfree Hi
         |n' src' Hp Hfree Hi Hc|n' src' e Hp Hfree Hi Hc He
         |n' src' e Hp Hfree Hi Hc He];
      try congruence;
      try (rewrite Hn2 in Hp; inversion Hp; subst n';
           cbn [filedict st1] in Hfree;
           rewrite lookup_insert_eq in Hfree; discriminate). }
  rewrite Hrun,
    (second_image_stops _ _ _ _ _ _ _ _ _ _ _ _ _ Hv Hl Hstep1 Hstep2).
  cbn [fst snd trace st1]. split; [reflexivity|]. split.
  - exists n. rewrite !copies_app, Hc0. reflexivity.
  - apply last_snoc.
Qed.

Lemma duplicate_name_exits_witness :
  fst (handle_single_json_file
         (sample_env
            [{| fields := fields sample_match;
                imageVariants :=
                  Some [ {[ "variantType" := "RAW";
                            "imagePath" := "/nrs/ppp/a.png" ]};
                         {[ "variantType" := "raw";
                            "imagePath" := "/nrs/ppp/b.png" ]} ] |}])
         "v2.2.0" "FlyLight_Split-GAL4_Drivers" "/Volumes/nb/1537331894.json")
  = inl (SysExit (-1)).
Proof.
  apply (duplicate_name_exits
           (sample_env
              [{| fields := fields sample_match;
                  imageVariants :=
                    Some [ {[ "variantType" := "RAW";
                              "imagePath" := "/nrs/ppp/a.png" ]};
                           {[ "variantType" := "raw";
                              "imagePath" := "/nrs/ppp/b.png" ]} ] |}])
           "v2.2.0" "FlyLight_Split-GAL4_Drivers"
           "/Volumes/nb/1537331894.json"
           {| fields := fields sample_match;
              imageVariants :=
                Some [ {[ "variantType" := "RAW";
                          "imagePath" := "/nrs/ppp/a.png" ]};
                       {[ "variantType" := "raw";
                          "imagePath" := "/nrs/ppp/b.png" ]} ] |}
           []
           {[ "variantType" := "RAW"; "imagePath" := "/nrs/ppp/a.png" ]}
           {[ "variantType" := "raw"; "imagePath" := "/nrs/ppp/b.png" ]}
           [] "RAW" "raw" "/nrs/ppp/a.png" "1537331894-LC10-RT").
  - reflexivity.
  - intros e He. discriminate.
  - reflexivity.
  - intros key Hkey. cbn in Hkey.
    destruct Hkey as [<-|[<-|[<-|[<-|[]]]]]; vm_compute; eauto.
  - vm_compute. reflexivity.
  - vm_compute. reflexivity.
  - vm_compute. reflexivity.
  - vm_compute. reflexivity.
  - reflexivity.
  - vm_compute. reflexivity.
Defined.

(** X16: the directory for a JSON file is named by the part of the file
    name before its first dot, below
    [/Volumes/neuronbridge/ppp_imagery/<version>/<library>]; the
    directories of the path and the rest of the file name play no part. *)
Theorem newdir_of_stem (neuronbridge library dir stem ext : string) :
  Str.contains "/" stem = false ->
  Str.contains "." stem = false ->
  Str.contains "/" ext = false ->
  newdir_of neuronbridge library (dir +:+ "/" +:+ stem +:+ "." +:+ ext)
  = "/Volumes/neuronbridge/ppp_imagery/" +:+ neuronbridge +:+ "/"
    +:+ library +:+ "/" +:+ stem.
Proof.
  intros Hs1 Hs2 He.
  assert (Hfile : Str.contains "/" (stem +:+ "." +:+ ext) = false).
  { rewrite contains_append, Hs1. simpl. exact He. }
  unfold newdir_of.
  change (dir +:+ "/" +:+ stem +:+ "." +:+ ext)
    with (dir +:+ String "/" (stem +:+ "." +:+ ext)).
  rewrite split_app, (split_no_sep _ _ Hfile), last_item_app.
  change (stem +:+ "." +:+ ext) with (stem +:+ String "." ext).
  rewrite split_app, (split_no_sep _ _ Hs2).
  cbn [app hd join]. unfold NEURONBRIDGE_JSON_BASE.
  rewrite !append_assoc. reflexivity.
Qed.

Lemma newdir_of_stem_witness :
  newdir_of "v2.2.0" "FlyLight_Split-GAL4_Drivers"
    "/Volumes/neuronbridge/v2.2.0/pppresults/flyem-to-flylight/1537331894.json"
  = "/Volumes/neuronbridge/ppp_imagery/v2.2.0/FlyLight_Split-GAL4_Drivers/1537331894".
Proof.
  apply (newdir_of_stem "v2.2.0" "FlyLight_Split-GAL4_Drivers"
           "/Volumes/neuronbridge/v2.2.0/pppresults/flyem-to-flylight"
           "1537331894" "json"); reflexivity.
Defined.

End PppSpec.

(** ** The menus: what is offered and what is returned *)

Module MenusSpec.
Import Menus StrFacts.

Lemma existsb_eqb (name : string) (l : list string) :
  existsb (String.eqb name) l = true <-> In name l.
Proof.
  rewrite existsb_exists. split.
  - intros (x & Hx & Heq). apply String.eqb_eq in Heq. now subst.
  - intros H. exists name. split; [exact H|apply String.eqb_refl].
Qed.

Lemma unique_names_spec (cdm_libs : list (string * gmap string string)) :
  (forall p, In p cdm_libs -> is_Some (snd p !! "name")) ->
  forall acc, NoDup acc ->
    exists cdmlist,
      unique_names cdm_libs acc = inr cdmlist
      /\ NoDup cdmlist
      /\ forall n, In n cdmlist
                   <-> In n acc
                       \/ exists p, In p cdm_libs /\ snd p !! "name" = Some n.
Proof.
  induction cdm_libs as [|[key library] rest IH]; intros Hall acc Hnd.
  - exists acc. split; [reflexivity|]. split; [exact Hnd|].
    intros n. split; [auto|]. intros [H|(p & [] & _)]. exact H.
  - destruct (Hall (key, library) (or_introl eq_refl)) as [name Hname].
    cbn [snd] in Hname. cbn [unique_names]. rewrite Hname.
    assert (Hrest : forall p, In p rest -> is_Some (snd p !! "name"))
      by (intros p Hp; apply Hall; now right).
    destruct (existsb (String.eqb name) acc) eqn:Hex.
    + apply existsb_eqb in Hex.
      destruct (IH Hrest acc Hnd) as (l & Hl & Hndl & Hin).
      exists l. split; [exact Hl|]. split; [exact Hndl|].
      intros n. rewrite Hin. split.
      * intros [H|(p & Hp & Hn)]; [now left|].
        right. exists p. split; [now right|exact Hn].
      * intros [H|(p & [Hp|Hp] & Hn)]; [now left| |].
        -- subst p. cbn [snd] in Hn. left. congruence.
        -- right. now exists p.
    + assert (Hnot : ~ In name acc).
      { intros H. apply existsb_eqb in H. congruence. }
      assert (Hnd' : NoDup (acc ++ [name])).
      { apply NoDup_app. split; [exact Hnd|]. split; [|apply NoDup_singleton].
        intros x Hx Hx'. apply list_elem_of_singleton in Hx'. subst x.
        apply Hnot. now apply list_elem_of_In. }
      destruct (IH Hrest (acc ++ [name]) Hnd') as (l & Hl & Hndl & Hin).
      exists l. split; [exact Hl|]. split; [exact Hndl|].
      intros n. rewrite Hin, in_app_iff. cbn [In]. split.
      * intros [[H|[H|[]]]|(p & Hp & Hn)].
        -- now left.
        -- right. exists (key, library). split; [now left|]. now subst.
        -- right. exists p. split; [now right|exact Hn].
      * intros [H|(p & [Hp|Hp] & Hn)].
        -- left. now left.
        -- subst p. cbn [snd] in Hn. left. right. left. congruence.
        -- right. now exists p.
Qed.

Lemma replace_char_gone (s : string) :
  Str.contains " " (replace_char " " "_" s) = false.
Proof.
  induction s as [|c s IH]; [reflexivity|].
  cbn [replace_char]. destruct (Ascii.eqb c " ") eqn:Hc.
  - change ("_" +:+ replace_char " " "_" s)
      with (String "_" (replace_char " " "_" s)).
    cbn [Str.contains]. now rewrite IH.
  - cbn [Str.contains]. now rewrite Hc, IH.
Qed.

(** X17: called with the library configuration, [get_library] offers
    every library name once, however many entries carry it; the name it
    returns is the chosen one with every blank replaced by an
    underscore, so it holds no blank. *)
Theorem get_library_config (show : list string -> option nat)
    (cdm_libs : list (string * gmap string string)) :
  (forall p, In p cdm_libs -> is_Some (snd p !! "name")) ->
  exists cdmlist,
    unique_names cdm_libs [] = inr cdmlist
    /\ NoDup cdmlist
    /\ (forall n, In n cdmlist
                  <-> exists p, In p cdm_libs /\ snd p !! "name" = Some n)
    /\ forall r,
         snd (get_library show (FromConfig cdm_libs)) = inr (Some r) ->
         Str.contains " " r = false
         /\ exists n, In n cdmlist /\ r = replace_char " " "_" n.
Proof.
  intros Hall.
  destruct (unique_names_spec cdm_libs Hall [] (NoDup_nil_2))
    as (cdmlist & Hl & Hnd & Hin).
  exists cdmlist. split; [exact Hl|]. split; [exact Hnd|]. split.
  - intros n. rewrite Hin. split; [intros [[]|H]; exact H|auto].
  - intros r. unfold get_library. rewrite Hl.
    destruct (show cdmlist) as [chosen|]; [|discriminate].
    destruct (cdmlist !! chosen) as [name|] eqn:Hc; [|discriminate].
    cbn [snd]. intros Hr. inversion Hr; subst r.
    split; [apply replace_char_gone|].
    exists name. split; [|reflexivity].
    apply list_elem_of_In. eapply list_elem_of_lookup_2. exact Hc.
Qed.

Lemma get_library_config_witness :
  exists cdmlist,
    unique_names
      [("flylight_gen1_gal4", {[ "name" := "FlyLight Gen1 GAL4" ]});
       ("flylight_gen1_gal4_published", {[ "name" := "FlyLight Gen1 GAL4" ]});
       ("flyem_hemibrain", {[ "name" := "FlyEM Hemibrain" ]})] []
    = inr cdmlist
    /\ NoDup cdmlist
    /\ snd (get_library (fun _ => Some 0%nat)
              (FromConfig
                 [("flylight_gen1_gal4",
                   {[ "name" := "FlyLight Gen1 GAL4" ]});
                  ("flylight_gen1_gal4_published",
                   {[ "name" := "FlyLight Gen1 GAL4" ]});
                  ("flyem_hemibrain", {[ "name" := "FlyEM Hemibrain" ]})]))
       = inr (Some "FlyLight_Gen1_GAL4").
Proof.
  destruct (get_library_config (fun _ => Some 0%nat)
              [("flylight_gen1_gal4", {[ "name" := "FlyLight Gen1 GAL4" ]});
               ("flylight_gen1_gal4_published",
                {[ "name" := "FlyLight Gen1 GAL4" ]});
               ("flyem_hemibrain", {[ "name" := "FlyEM Hemibrain" ]})])
    as (cdmlist & Hl & Hnd & _).
  - intros p [<-|[<-|[<-|[]]]]; vm_compute; eauto.
  - exists cdmlist. split; [exact Hl|]. split; [exact Hnd|].
    vm_compute. reflexivity.
Defined.

Lemma search_from_slash (t rest : string) :
  Str.contains newline t = false ->
  search_from true (t +:+ String "/" rest) = true.
Proof.
  induction t as [|c t IH]; intros Hnl; [reflexivity|].
  cbn [Str.contains] in Hnl. apply orb_false_iff in Hnl as [Hc Ht].
  change (String c t +:+ String "/" rest)
    with (String c (t +:+ String "/" rest)).
  cbn [search_from]. rewrite Hc. cbn [negb].
  rewrite (IH Ht). apply orb_true_r.
Qed.

Lemma search_dots_slash_prefix (t rest : string) :
  t <> EmptyString ->
  Str.contains newline t = false ->
  search_dots_slash (t +:+ String "/" rest) = true.
Proof.
  intros Hne Hnl. destruct t as [|c t]; [congruence|].
  cbn [Str.contains] in Hnl. apply orb_false_iff in Hnl as [Hc Ht].
  unfold search_dots_slash.
  change (String c t +:+ String "/" rest)
    with (String c (t +:+ String "/" rest)).
  cbn [search_from andb orb]. rewrite Hc. cbn [negb].
  now apply search_from_slash.
Qed.

Lemma prefix_names_listing (listing : list (string * string)) :
  Forall (fun p => fst p <> EmptyString
                   /\ Str.contains "/" (fst p) = false
                   /\ Str.contains newline (fst p) = false
                   /\ Str.contains "/" (snd p) = false) listing ->
  forall acc,
    prefix_names
      (map (fun p => Some (fst p +:+ "/" +:+ snd p +:+ "/")) listing) acc
    = inr (acc ++ map snd listing).
Proof.
  induction listing as [|[t l] rest IH]; intros Hall acc.
  - cbn. now rewrite app_nil_r.
  - inversion Hall as [|? ? (Hne & Hs & Hnl & Hl) Hrest]; subst.
    cbn [fst snd] in *. cbn [map prefix_names fst snd].
    change (t +:+ "/" +:+ l +:+ "/")
      with (t +:+ String "/" (l +:+ String "/" EmptyString)).
    rewrite search_dots_slash_prefix by assumption.
    rewrite !split_app, (split_no_sep _ _ Hs), (split_no_sep _ _ Hl).
    cbn [app lookup list_lookup].
    rewrite (IH Hrest). now rewrite <- app_assoc.
Qed.

(** X18: called with client, bucket and prefix, [get_library] offers,
    for a listing of prefixes of the form [template/library/], the
    library names in the order of the listing, repeats included, and
    returns the chosen one with blanks replaced by underscores. *)
Theorem get_library_bucket (show : list string -> option nat)
    (listing : list (string * string)) (chosen : nat) (name : string) :
  Forall (fun p => fst p <> EmptyString
                   /\ Str.contains "/" (fst p) = false
                   /\ Str.contains newline (fst p) = false
                   /\ Str.contains "/" (snd p) = false) listing ->
  show (map snd listing) = Some chosen ->
  map snd listing !! chosen = Some name ->
  get_library show
    (FromBucket
       (map (fun p => Some (fst p +:+ "/" +:+ snd p +:+ "/")) listing))
  = (["Select a library:"], inr (Some (replace_char " " "_" name))).
Proof.
  intros Hall Hshow Hname. unfold get_library.
  rewrite (prefix_names_listing listing Hall []). cbn [app].
  now rewrite Hshow, Hname.
Qed.

Lemma get_library_bucket_witness :
  get_library (fun entries => Some (length entries - 1)%nat)
    (FromBucket [Some "JRC2018_Unisex_20x_HR/FlyEM_Hemibrain_v1.2.1/";
                 Some "JRC2018_Unisex_20x_HR/FlyLight Gen1 MCFO/"])
  = (["Select a library:"], inr (Some "FlyLight_Gen1_MCFO")).
Proof.
  apply (get_library_bucket (fun entries => Some (length entries - 1)%nat)
           [("JRC2018_Unisex_20x_HR", "FlyEM_Hemibrain_v1.2.1");
            ("JRC2018_Unisex_20x_HR", "FlyLight Gen1 MCFO")] 1
           "FlyLight Gen1 MCFO").
  - repeat constructor; try discriminate; reflexivity.
  - reflexivity.
  - reflexivity.
Defined.

(** The part of a path after its last slash. *)
Lemma strip_dirs_basename (dir name : string) :
  Str.contains newline dir = false ->
  Str.contains newline name = false ->
  Str.contains "/" name = false ->
  strip_dirs (dir +:+ String "/" name) = name.
Proof.
  intros Hd Hn Hs. unfold strip_dirs.
  assert (Hnl : Str.contains newline (dir +:+ String "/" name) = false).
  { rewrite contains_append, Hd. cbn [Str.contains orb]. exact Hn. }
  rewrite (split_no_sep _ _ Hnl). cbn [map Ppp.join].
  now rewrite split_app, (split_no_sep _ _ Hs), last_item_app.
Qed.

(** X19: both version menus offer the bare names of the directories that
    the glob found, in its order, and hand back the chosen name;
    [get_neuronbridge_version] returns [None] when nothing is chosen,
    [get_nb_version] then logs an error and exits with status 0. *)
Theorem version_menus (dir : string) (names : list string)
    (show : list string -> option nat) :
  Str.contains newline dir = false ->
  Forall (fun n => Str.contains newline n = false
                   /\ Str.contains "/" n = false) names ->
  let glob := map (fun n => dir +:+ String "/" n) names in
  map strip_dirs glob = names
  /\ (forall chosen v,
        show names = Some chosen -> names !! chosen = Some v ->
        snd (get_neuronbridge_version true glob show) = inr (Some v)
        /\ snd (get_nb_version glob show) = inr v)
  /\ (show names = None ->
      snd (get_neuronbridge_version true glob show) = inr None
      /\ get_nb_version glob show
         = (["Select a NeuronBridge version:"],
            [Ppp.LogError "No NeuronBridge version selected" []],
            inl (SysExit 0))).
Proof.
  intros Hd Hall glob.
  assert (Hmap : map strip_dirs glob = names).
  { subst glob. induction names as [|n names IH]; [reflexivity|].
    inversion Hall as [|? ? [Hn Hs] Hrest]; subst.
    cbn [map]. rewrite strip_dirs_basename by assumption.
    now rewrite (IH Hrest). }
  split; [exact Hmap|].
  unfold get_neuronbridge_version, get_nb_version. cbn [negb].
  rewrite Hmap. split.
  - intros chosen v Hshow Hv. now rewrite Hshow, Hv.
  - intros Hshow. now rewrite Hshow.
Qed.

Lemma version_menus_witness :
  map strip_dirs ["/groups/scicompsoft/release_libraries/v2.1.1";
                  "/groups/scicompsoft/release_libraries/v2.2.0"]
  = ["v2.1.1"; "v2.2.0"]
  /\ snd (get_neuronbridge_version true
            ["/groups/scicompsoft/release_libraries/v2.1.1";
             "/groups/scicompsoft/release_libraries/v2.2.0"]
            (fun _ => Some 1%nat)) = inr (Some "v2.2.0").
Proof.
  destruct (version_menus "/groups/scicompsoft/release_libraries"
              ["v2.1.1"; "v2.2.0"] (fun _ => Some 1%nat))
    as (Hmap & Hchosen & _).
  - reflexivity.
  - repeat constructor.
  - split; [exact Hmap|].
    apply (Hchosen 1%nat "v2.2.0"); reflexivity.
Defined.

End MenusSpec.

(** ** Fetching the configuration: which URLs are asked *)

Module ConfigSpec.
Import Config.

Lemma first_call (get : list string -> string -> reply) :
  call_responder get "config" "config/rest_services" globals0
  = match get [] rest_services_url with
    | RequestException msg =>
        (inl (SysExit (-1)),
         {| CONFIG := CONFIG globals0; AWS := AWS globals0;
            requested := [rest_services_url];
            logged := [LogCritical msg] |})
    | OtherException e =>
        (inl (Uncaught e),
         {| CONFIG := CONFIG globals0; AWS := AWS globals0;
            requested := [rest_services_url]; logged := [] |})
    | Response status_code body =>
        if negb (status_code =? 200) then
          (inl (SysExit (-1)),
           {| CONFIG := CONFIG globals0; AWS := AWS globals0;
              requested := [rest_services_url];
              logged := [LogStatus status_code rest_services_url] |})
        else
          match body with
          | Ok data =>
              (inr data,
               {| CONFIG := CONFIG globals0; AWS := AWS globals0;
                  requested := [rest_services_url]; logged := [] |})
          | Raise e =>
              (inl (Uncaught e),
               {| CONFIG := CONFIG globals0; AWS := AWS globals0;
                  requested := [rest_services_url]; logged := [] |})
          end
    end.
Proof.
  unfold call_responder.
  change (subscript (CONFIG globals0) "config")
    with (@inr raised json
            (JObj {[ "url" := JStr "http://config.int.janelia.org/" ]})).
  cbv iota.
  change (subscript (JObj {[ "url" := JStr "http://config.int.janelia.org/" ]})
            "url")
    with (@inr raised json (JStr "http://config.int.janelia.org/")).
  cbv iota. reflexivity.
Qed.

(** X20: the first request always goes to the built-in configuration
    server.  When [initialize_program] returns, the second request went
    to the URL that the first answer itself configures for the server
    [config], followed by [config/aws]; [CONFIG] and [AWS] are the
    [config] members of the two answers, and nothing was logged. *)
Theorem initialize_program_chain (get : list string -> string -> reply) :
  let run := initialize_program get globals0 in
  hd_error (requested (snd run)) = Some rest_services_url
  /\ (fst run = inr tt ->
      exists data1 data2 entry u,
        get [] rest_services_url = Response 200 (Ok data1)
        /\ subscript data1 "config" = inr (CONFIG (snd run))
        /\ subscript (CONFIG (snd run)) "config" = inr entry
        /\ subscript entry "url" = inr (JStr u)
        /\ requested (snd run) = [rest_services_url; u +:+ "config/aws"]
        /\ get [rest_services_url] (u +:+ "config/aws")
           = Response 200 (Ok data2)
        /\ subscript data2 "config" = inr (AWS (snd run))
        /\ logged (snd run) = []).
Proof.
  cbv zeta. unfold initialize_program. rewrite first_call.
  destruct (get [] rest_services_url) as [msg|e|status body] eqn:Hget1;
    cbn [fst snd requested hd_error];
    try (split; [reflexivity|discriminate]).
  destruct (Z.eqb_spec status 200) as [->|Hne]; cbn [negb];
    [|split; [reflexivity|discriminate]].
  destruct body as [data1|e]; [|split; [reflexivity|discriminate]].
  destruct (subscript data1 "config") as [e|config] eqn:Hc1;
    [split; [reflexivity|discriminate]|].
  unfold call_responder. cbn [CONFIG AWS requested logged].
  destruct (subscript config "config") as [e|entry] eqn:Hentry;
    [split; [reflexivity|discriminate]|].
  destruct (subscript entry "url") as [e|base] eqn:Hurl;
    [split; [reflexivity|discriminate]|].
  destruct base as [u| |]; cbn [concat_str app];
    try (split; [reflexivity|discriminate]).
  destruct (get [rest_services_url] (u +:+ "config/aws"))
    as [msg|e|status body] eqn:Hget2;
    cbn [fst snd requested hd_error];
    try (split; [reflexivity|discriminate]).
  destruct (Z.eqb_spec status 200) as [->|Hne]; cbn [negb];
    [|split; [reflexivity|discriminate]].
  destruct body as [data2|e]; [|split; [reflexivity|discriminate]].
  destruct (subscript data2 "config") as [e|aws] eqn:Hc2;
    cbn [fst snd requested hd_error CONFIG AWS logged];
    [split; [reflexivity|discriminate]|].
  split; [reflexivity|]. intros _.
  exists data1, data2, entry, u. auto 10.
Qed.

Lemma initialize_program_chain_witness :
  let get := fun (_ : list string) (url : string) =>
    if String.eqb url rest_services_url
    then Response 200
           (Ok (JObj {[ "config" :=
                          JObj {[ "config" :=
                                    JObj {[ "url" := JStr "http://cfg2/" ]}
                                ]} ]}))
    else Response 200
           (Ok (JObj {[ "config" :=
                          JObj {[ "role_arn" := JStr "arn:aws:iam::1" ]} ]}))
  in
  requested (snd (initialize_program get globals0))
  = [rest_services_url; "http://cfg2/config/aws"]
  /\ exists data1 data2 entry u,
       get [] rest_services_url = Response 200 (Ok data1)
       /\ subscript data1 "config"
          = inr (CONFIG (snd (initialize_program get globals0)))
       /\ subscript (CONFIG (snd (initialize_program get globals0))) "config"
          = inr entry
       /\ subscript entry "url" = inr (JStr u)
       /\ requested (snd (initialize_program get globals0))
          = [rest_services_url; u +:+ "config/aws"]
       /\ get [rest_services_url] (u +:+ "config/aws")
          = Response 200 (Ok data2)
       /\ subscript data2 "config"
          = inr (AWS (snd (initialize_program get globals0)))
       /\ logged (snd (initialize_program get globals0)) = [].
Proof.
  intros get. split; [reflexivity|].
  apply (proj2 (initialize_program_chain get)). reflexivity.
Defined.

(** X21: when the first answer's [config] has no entry for the server
    [config] itself, the run ends with [KeyError] and not with a logged
    exit: [CONFIG] has been replaced by then, and the second request is
    never made. *)
Theorem rest_services_without_config (get : list string -> string -> reply)
    (data : json) (members : gmap string json) :
  get [] rest_services_url = Response 200 (Ok data) ->
  subscript data "config" = inr (JObj members) ->
  members !! "config" = None ->
  initialize_program get globals0
  = (inl (KeyError "config"),
     {| CONFIG := JObj members; AWS := JObj ∅;
        requested := [rest_services_url]; logged := [] |}).
Proof.
  intros Hget Hdata Hnone.
  unfold initialize_program. rewrite first_call, Hget.
  change (negb (200 =? 200)) with false. cbv iota. rewrite Hdata.
  unfold call_responder. cbn [CONFIG subscript]. now rewrite Hnone.
Qed.

Lemma rest_services_without_config_witness :
  initialize_program
    (fun _ _ =>
       Response 200
         (Ok (JObj {[ "config" :=
                        JObj {[ "sage" :=
                                  JObj {[ "url" := JStr "http://sage/" ]} ]}
                    ]})))
    globals0
  = (inl (KeyError "config"),
     {| CONFIG := JObj {[ "sage" := JObj {[ "url" := JStr "http://sage/" ]} ]};
        AWS := JObj ∅;
        requested := [rest_services_url]; logged := [] |}).
Proof.
  apply (rest_services_without_config _
           (JObj {[ "config" :=
                      JObj {[ "sage" :=
                                JObj {[ "url" := JStr "http://sage/" ]} ]} ]})).
  - reflexivity.
  - reflexivity.
  - reflexivity.
Defined.

End ConfigSpec.

(** ** The libraries that can be chosen *)

Module PppLibrarySpec.
Import PppLibrary StrFacts.

Lemma second_last_prefix (template name : string) :
  Str.contains "/" name = false ->
  second_last (split "/" (template +:+ String "/" (name +:+ String "/" "")))
  = Some name.
Proof.
  intros Hn. rewrite !split_app, (split_no_sep _ _ Hn).
  unfold second_last. cbn [split]. rewrite !rev_app_distr. reflexivity.
Qed.

Lemma eligible_filter (head_object : string -> head_reply)
    (listing : list (string * string)) :
  Forall (fun p => Str.contains "/" (snd p) = false
                   /\ forall e, head_object (denormalized_key (snd p))
                                <> HeadRaises e) listing ->
  forall library,
    eligible head_object
      (map (fun p => Some (fst p +:+ String "/" (snd p +:+ String "/" "")))
           listing) library
    = inr (library
           ++ List.filter
                (fun n => is_found (head_object (denormalized_key n)))
                (map snd listing)).
Proof.
  induction listing as [|[t n] rest IH]; intros Hall library.
  - cbn. now rewrite app_nil_r.
  - inversion Hall as [|? ? [Hn Hhead] Hrest]; subst. cbn [fst snd] in *.
    cbn [map eligible fst snd]. rewrite (second_last_prefix _ _ Hn).
    cbn [List.filter].
    destruct (head_object (denormalized_key n)) as [| |e] eqn:Hh;
      cbn [is_found].
    + rewrite (IH Hrest). now rewrite <- app_assoc.
    + now rewrite (IH Hrest).
    + now destruct (Hhead e).
Qed.

(** X22: for a listing of prefixes of the form [template/library/],
    the libraries offered are those whose
    [searchable_neurons/keys_denormalized.json] answers to
    [head_object], in the order of the listing; a [ClientError] leaves a
    library out without a word.  The chosen one becomes [ARG.LIBRARY];
    with no choice the run logs an error and exits with status 0. *)
Theorem offered_libraries (head_object : string -> head_reply)
    (show : list string -> option nat) (listing : list (string * string)) :
  Forall (fun p => Str.contains "/" (snd p) = false
                   /\ forall e, head_object (denormalized_key (snd p))
                                <> HeadRaises e) listing ->
  let prefixes :=
    map (fun p => Some (fst p +:+ String "/" (snd p +:+ String "/" "")))
        listing in
  let library :=
    List.filter (fun n => is_found (head_object (denormalized_key n)))
                (map snd listing) in
  eligible head_object prefixes [] = inr library
  /\ (forall chosen name,
        show library = Some chosen -> library !! chosen = Some name ->
        get_library (Ok (Some prefixes)) head_object show
        = ([Printed "Select a library:"], inr name))
  /\ (show library = None ->
      get_library (Ok (Some prefixes)) head_object show
      = ([Printed "Select a library:"; LogError "No library selected"],
         inl (SysExit 0))).
Proof.
  intros Hall prefixes library.
  pose proof (eligible_filter head_object listing Hall []) as He.
  cbn [app] in He. fold prefixes library in He.
  split; [exact He|]. unfold get_library. rewrite He. split.
  - intros chosen name Hshow Hname. now rewrite Hshow, Hname.
  - intros Hshow. now rewrite Hshow.
Qed.

Lemma offered_libraries_witness :
  let head_object := fun key =>
    if String.eqb key
         "JRC2018_Unisex_20x_HR/FlyLight_Gen1_MCFO/searchable_neurons/keys_denormalized.json"
    then HeadFound else HeadClientError in
  get_library
    (Ok (Some [Some "JRC2018_Unisex_20x_HR/FlyEM_Hemibrain_v1.2.1/";
               Some "JRC2018_Unisex_20x_HR/FlyLight_Gen1_MCFO/"]))
    head_object (fun _ => Some 0%nat)
  = ([Printed "Select a library:"], inr "FlyLight_Gen1_MCFO").
Proof.
  intros head_object.
  destruct (offered_libraries head_object (fun _ => Some 0%nat)
              [("JRC2018_Unisex_20x_HR", "FlyEM_Hemibrain_v1.2.1");
               ("JRC2018_Unisex_20x_HR", "FlyLight_Gen1_MCFO")])
    as (_ & Hchosen & _).
  - repeat constructor; intros e; vm_compute; discriminate.
  - apply (Hchosen 0%nat "FlyLight_Gen1_MCFO"); reflexivity.
Defined.

End PppLibrarySpec.
